(** * athle.py: listing and detail scraper of athle.fr competitions

    A shallow embedding of the scraping pipeline of [athle.py] and the
    properties of its pagination, batch splitting, listing parser, detail
    parser and enrichment driver.

    Python values are modelled as follows.
    - [str] is a Rocq [string] holding the UTF-8 encoding of the text.  The
      literals of the source are written as they stand.  Searching for a
      literal, cutting at [':'] and testing a prefix give the same answer on
      the encoding as on the code points, UTF-8 being self-synchronising.
    - [int] is [Z]; [len] is [length] on [nat].
    - a [dict] with string keys is a [gmap string _].
    - a [datetime] at midnight is its proleptic Gregorian ordinal, with the
      bounds of [datetime.min] and [datetime.max].
    - the network, the HTML parser, the [re] engine and the Unicode case
      table are parameters of the sections that use them. *)

From Stdlib Require Import ZArith List Bool Ascii String QArith.
From stdpp Require Import base tactics option list gmap strings pretty.

Local Open Scope string_scope.
Local Open Scope Z_scope.

(** ** Python strings *)

Module Py.

(** The values held by the records: [str] and [int]. *)
Inductive value :=
| VStr (s : string)
| VInt (n : Z).

Global Instance value_eq_dec : EqDecision value.
Proof. solve_decision. Defined.

(** Truthiness of a string: [if s:]. *)
Definition nonempty (s : string) : bool :=
  match s with EmptyString => false | String _ _ => true end.

(** Truthiness of a value: [if v:]. *)
Definition truthy (v : value) : bool :=
  match v with
  | VStr s => nonempty s
  | VInt n => negb (n =? 0)
  end.

(** [str(v)] *)
Definition str (v : value) : string :=
  match v with
  | VStr s => s
  | VInt n => pretty n
  end.

(** [s.startswith(p)] *)
Definition startswith (p s : string) : bool := String.prefix p s.

(** [p in s] *)
Fixpoint contains (p s : string) : bool :=
  match s with
  | EmptyString => String.prefix p s
  | String _ s' => String.prefix p s || contains p s'
  end.

(** [s.replace(old, new)] for a non-empty [old]: occurrences are replaced from
    the left and do not overlap.  [skip] counts the characters of a matched
    occurrence that remain to be dropped. *)
Fixpoint replace_go (old new : string) (skip : nat) (s : string) : string :=
  match s with
  | EmptyString => EmptyString
  | String c s' =>
      match skip with
      | S k => replace_go old new k s'
      | O =>
          if String.prefix old s
          then new +:+ replace_go old new (Nat.pred (String.length old)) s'
          else String c (replace_go old new O s')
      end
  end.

Definition replace (old new s : string) : string := replace_go old new O s.

(** The text after the first [sep]: [s.split(sep, 1)[1]], the source calling
    it under [sep in s] only. *)
Fixpoint after_first (sep : ascii) (s : string) : string :=
  match s with
  | EmptyString => EmptyString
  | String c s' => if Ascii.eqb c sep then s' else after_first sep s'
  end.

(** [sep.join(l)] *)
Fixpoint join (sep : string) (l : list string) : string :=
  match l with
  | [] => EmptyString
  | [x] => x
  | x :: rest => x +:+ sep +:+ join sep rest
  end.

Definition bytes (l : list nat) : string :=
  string_of_list_ascii (map ascii_of_nat l).

(** The code points on which [str.isspace] holds, UTF-8 encoded: these are
    what [str.strip] removes. *)
Definition whitespace : list string :=
  map bytes
    [ [9]; [10]; [11]; [12]; [13]; [28]; [29]; [30]; [31]; [32];
      [194; 133]; [194; 160]; [225; 154; 128];
      [226; 128; 128]; [226; 128; 129]; [226; 128; 130]; [226; 128; 131];
      [226; 128; 132]; [226; 128; 133]; [226; 128; 134]; [226; 128; 135];
      [226; 128; 136]; [226; 128; 137]; [226; 128; 138];
      [226; 128; 168]; [226; 128; 169]; [226; 128; 175];
      [226; 129; 159]; [227; 128; 128] ]%nat.

Fixpoint drop (n : nat) (s : string) : string :=
  match n, s with
  | S k, String _ s' => drop k s'
  | _, _ => s
  end.

(** The length of the white-space code point that starts [s], if one does. *)
Definition leading_space (s : string) : option nat :=
  String.length <$> List.find (fun w => String.prefix w s) whitespace.

Fixpoint lstrip_go (fuel : nat) (s : string) : string :=
  match fuel with
  | O => s
  | S fuel' =>
      match leading_space s with
      | Some n => lstrip_go fuel' (drop n s)
      | None => s
      end
  end.

Definition lstrip (s : string) : string := lstrip_go (String.length s) s.

(** White space at the end of [s] is white space at the start of its
    reversal, each code point read backwards. *)
Definition trailing_space (r : string) : option nat :=
  String.length <$> List.find (fun w => String.prefix (String.rev w) r) whitespace.

Fixpoint rstrip_go (fuel : nat) (r : string) : string :=
  match fuel with
  | O => r
  | S fuel' =>
      match trailing_space r with
      | Some n => rstrip_go fuel' (drop n r)
      | None => r
      end
  end.

Definition rstrip (s : string) : string :=
  String.rev (rstrip_go (String.length s) (String.rev s)).

(** [s.strip()] *)
Definition strip (s : string) : string := rstrip (lstrip s).

(** A byte that starts a code point: not of the form 10xxxxxx. *)
Definition is_lead (c : ascii) : bool :=
  let n := nat_of_ascii c in (n <? 128)%nat || (192 <=? n)%nat.

(** [s[:n]]: the first [n] code points. *)
Fixpoint take_chars (n : nat) (s : string) : string :=
  match s with
  | EmptyString => EmptyString
  | String c s' =>
      if is_lead c then
        match n with
        | O => EmptyString
        | S k => String c (take_chars k s')
        end
      else String c (take_chars n s')
  end.

End Py.


(** ** The parsed document

    [BeautifulSoup(html, 'html.parser')] yields a tree of tags and strings.
    Comments and the like are left out of the tree: the source reads the
    document through [find], [find_all], [get] and [get_text] only, and none
    of them sees a comment.  The [class] attribute, which the parser holds
    as the list of its tokens, is a field of its own; the other attributes
    are a dictionary of strings. *)

Module Soup.

#[warnings="-register-all"]
Inductive node :=
| NavigableString (s : string)
| Tag (name : string) (attrs : gmap string string) (class_ : list string)
      (contents : list node).

Global Instance node_inhabited : Inhabited node := populate (NavigableString "").

(** [tag.descendants]: every node below [n], in document order. *)
Fixpoint descendants (n : node) : list node :=
  match n with
  | NavigableString _ => []
  | Tag _ _ _ contents => flat_map (fun c => c :: descendants c) contents
  end.

Definition name_is (name : string) (n : node) : bool :=
  match n with
  | Tag name' _ _ _ => String.eqb name name'
  | NavigableString _ => false
  end.

(** [tag.get(key)] *)
Definition get (key : string) (n : node) : option string :=
  match n with
  | Tag _ attrs _ _ => attrs !! key
  | NavigableString _ => None
  end.

(** [any] matches every tag: a search by name alone. *)
Definition any (n : node) : bool := true.

(** [key=True]: the attribute is there. *)
Definition has_attr (key : string) (n : node) : bool :=
  match get key n with Some _ => true | None => false end.

(** [{key: v}]: the attribute is there and is [v]. *)
Definition attr_is (key v : string) (n : node) : bool :=
  match get key n with Some v' => String.eqb v' v | None => false end.

(** [class_=c], also written [{'class': c}]: one of the tokens is [c], or
    the tokens joined by a blank are. *)
Definition has_class (c : string) (n : node) : bool :=
  match n with
  | Tag _ _ class_ _ =>
      existsb (String.eqb c) class_ || String.eqb (Py.join " " class_) c
  | NavigableString _ => false
  end.

(** [tag.find_all(name, ...)]: the descendants that are tags called [name]
    and pass the filter, in document order. *)
Definition find_all (name : string) (p : node -> bool) (n : node) : list node :=
  List.filter (fun d => name_is name d && p d) (descendants n).

(** [tag.find(name, ...)]: the first of them, or [None]. *)
Definition find (name : string) (p : node -> bool) (n : node) : option node :=
  head (find_all name p n).

(** The strings of [n] in document order. *)
Fixpoint strings (n : node) : list string :=
  match n with
  | NavigableString s => [s]
  | Tag _ _ _ contents => flat_map strings contents
  end.

(** [tag.get_text(separator, strip)]: with [strip] each string is stripped
    and dropped when nothing is left. *)
Definition get_text (separator : string) (strip : bool) (n : node) : string :=
  Py.join separator
    (if strip then List.filter Py.nonempty (map Py.strip (strings n))
     else strings n).

End Soup.

Abbreviation record := (gmap string Py.value).

(** ** Configuration *)

Definition BASE_URL : string := "https://www.athle.fr/bases/liste.aspx".
Definition COMPETITIONS_PER_PAGE : nat := 250.
Definition DEFAULT_DELAY : Q := 1.0%Q.

(** The names of the attributes set by the listing parser alone, and of the
    attributes that the detail page provides. *)
Definition listing_fields : list string :=
  ["Competition_ID"; "Date"; "Event"; "Location"; "Type"; "Level";
   "Detail_URL"; "Page"].

Definition enrichment_fields : list string :=
  ["Organizer_Name"; "Organizer_Address"; "Organizer_Phone";
   "Organizer_Email"; "Organizer_Website"; "Stadium_Address";
   "Competition_Code"; "Contact_Person"; "Events_List"; "Events_Count"].

(** ** The listing parser *)

Section Listing.

(** [re.search(pattern, text)], with or without [re.IGNORECASE]: on a match,
    [group(0)] and [group(1)]. *)
Variable re_search : string -> bool -> string -> option (string * string).

(** The [href] of a listing row, made absolute when it starts with a
    slash. *)
Definition detail_url_of (cells : list Soup.node) : string :=
  if (7 <=? length cells)%nat then
    match Soup.find "a" Soup.any (cells !!! 6%nat) with
    | Some detail_link =>
        match Soup.get "href" detail_link with
        | Some href =>
            if Py.nonempty href then
              if Py.startswith "/" href then "https://www.athle.fr" +:+ href
              else href
            else ""
        | None => ""
        end
    | None => ""
    end
  else "".

(** The [href] of the first anchor of the last cell, if there is one. *)
Definition row_href (cells : list Soup.node) : option string :=
  Soup.find "a" Soup.any (cells !!! 6%nat) ≫= Soup.get "href".

Definition competition_id_of (date_cell : Soup.node) : string :=
  match Soup.find "a" (Soup.has_attr "title") date_cell with
  | Some date_link =>
      match Soup.get "title" date_link with
      | Some title =>
          if Py.nonempty title then
            match re_search "numéro : (\d+)" false title with
            | Some (_, group1) => group1
            | None => ""
            end
          else ""
      | None => ""
      end
  | None => ""
  end.

(** The dictionary built for a row of at least seven cells. *)
Definition competition (cells : list Soup.node) (page : Z) : record :=
  let date_cell := cells !!! 0%nat in
  let competition_id := competition_id_of date_cell in
  let date := Soup.get_text "" true date_cell in
  let event :=
    if (1 <? length cells)%nat then Soup.get_text "" true (cells !!! 1%nat) else "" in
  let location :=
    if (2 <? length cells)%nat then Soup.get_text "" true (cells !!! 2%nat) else "" in
  let competition_type :=
    if (3 <? length cells)%nat then Soup.get_text "" true (cells !!! 3%nat) else "" in
  let level :=
    if (4 <? length cells)%nat then Soup.get_text "" true (cells !!! 4%nat) else "" in
  let detail_url := detail_url_of cells in
  <["Competition_ID" := Py.VStr competition_id]> (
  <["Date" := Py.VStr date]> (
  <["Event" := Py.VStr event]> (
  <["Location" := Py.VStr location]> (
  <["Type" := Py.VStr competition_type]> (
  <["Level" := Py.VStr level]> (
  <["Detail_URL" := Py.VStr detail_url]> (
  <["Page" := Py.VInt page]> (
  <["Organizer_Name" := Py.VStr ""]> (
  <["Organizer_Address" := Py.VStr ""]> (
  <["Organizer_Phone" := Py.VStr ""]> (
  <["Organizer_Email" := Py.VStr ""]> (
  <["Organizer_Website" := Py.VStr ""]> (
  <["Stadium_Address" := Py.VStr ""]> (
  <["Competition_Code" := Py.VStr ""]> (
  <["Contact_Person" := Py.VStr ""]> (
  <["Events_List" := Py.VStr ""]> (
  <["Events_Count" := Py.VInt 0]> ∅))))))))))))))))).

(** [row.find_all('td')] *)
Definition row_cells (row : Soup.node) : list Soup.node := Soup.find_all "td" Soup.any row.

Definition enough_cells (row : Soup.node) : bool := (7 <=? length (row_cells row))%nat.

(** The body of the loop over the rows: a row of fewer than seven cells is
    passed over by [continue], any other row appends its dictionary. *)
Fixpoint parse_rows (rows : list Soup.node) (page : Z)
    (competitions : list record) : list record :=
  match rows with
  | [] => competitions
  | row :: rest =>
      let cells := row_cells row in
      if (length cells <? 7)%nat then parse_rows rest page competitions
      else parse_rows rest page (competitions ++ [competition cells page])
  end.

(** [parse_competitions], from the parsed document on. *)
Definition parse_competitions_soup (soup : Soup.node) (page : Z) : list record :=
  let rows := Soup.find_all "tr" (Soup.has_class "clignotant") soup in
  parse_rows rows page [].

End Listing.

(** ** The detail parser *)

Section Detail.

Variable re_search : string -> bool -> string -> option (string * string).

(** [s.lower()] *)
Variable str_lower : string -> string.

Definition newline : string := Py.bytes [10%nat].

(** [key in detail_data] *)
Definition has_key (key : string) (d : record) : bool :=
  match d !! key with Some _ => true | None => false end.

(** The filter of the mail links: [lambda x: x and 'mailto:' in x]. *)
Definition is_mailto (n : Soup.node) : bool :=
  match Soup.get "href" n with
  | Some x => Py.nonempty x && Py.contains "mailto:" x
  | None => false
  end.

(** [link.get('href', '').replace('mailto:', '').strip()] *)
Definition mail_address (link : Soup.node) : string :=
  Py.strip (Py.replace "mailto:" "" (default "" (Soup.get "href" link))).

(** Method 1: the first mail link whose address is not blank sets the
    address and ends the loop. *)
Fixpoint mailto_loop (mailto_links : list Soup.node) (detail_data : record) : record :=
  match mailto_links with
  | [] => detail_data
  | link :: rest =>
      let email := mail_address link in
      if Py.nonempty email then <["Organizer_Email" := Py.VStr email]> detail_data
      else mailto_loop rest detail_data
  end.

(** [text.split(':', 1)[1].strip() if ':' in text else ''] *)
Definition after_colon (text : string) : string :=
  if Py.contains ":" text then Py.strip (Py.after_first ":" text) else "".

(** Method 2, one paragraph: the chain of [if] and [elif] on its text. *)
Definition paragraph (detail_data : record) (p : Soup.node) : record :=
  let text := Soup.get_text "" true p in
  if Py.contains "Nom de l’organisateur" text
     || Py.contains "Nom de l'organisateur" text then
    <["Organizer_Name" := Py.VStr (after_colon text)]> detail_data
  else if Py.contains "Adresse" text && negb (Py.contains "stade" (str_lower text)) then
    <["Organizer_Address" := Py.VStr (after_colon text)]> detail_data
  else if Py.contains "Téléphone" text then
    <["Organizer_Phone" := Py.VStr (after_colon text)]> detail_data
  else if Py.contains "Email" text && negb (has_key "Organizer_Email" detail_data) then
    let email_text := after_colon text in
    match re_search "[\w\.-]+@[\w\.-]+\.\w+" false email_text with
    | Some (group0, _) => <["Organizer_Email" := Py.VStr group0]> detail_data
    | None =>
        if Py.nonempty email_text && negb (String.eqb email_text "-") then
          <["Organizer_Email" := Py.VStr email_text]> detail_data
        else detail_data
    end
  else if Py.contains "Site internet" text then
    let website := after_colon text in
    if Py.nonempty website && negb (String.eqb website "-") then
      <["Organizer_Website" := Py.VStr website]> detail_data
    else detail_data
  else if Py.contains "Adresse du stade" text then
    <["Stadium_Address" := Py.VStr (after_colon text)]> detail_data
  else detail_data.

(** Methods 1 and 2, run when the page has the section of practical
    information. *)
Definition organizer (info_section : option Soup.node) (detail_data : record) : record :=
  match info_section with
  | Some section =>
      let detail_data := mailto_loop (Soup.find_all "a" is_mailto section) detail_data in
      fold_left paragraph (Soup.find_all "p" Soup.any section) detail_data
  | None => detail_data
  end.

(** Method 3: with no address so far, or a blank one, search the text of
    the whole section. *)
Definition email_fallback (info_section : option Soup.node) (detail_data : record) : record :=
  if negb (has_key "Organizer_Email" detail_data)
     || negb (from_option Py.truthy false (detail_data !! "Organizer_Email")) then
    match info_section with
    | Some section =>
        let section_text := Soup.get_text "" false section in
        match re_search "Email\s*[:\-]?\s*([\w\.-]+@[\w\.-]+\.\w+)" true section_text with
        | Some (_, group1) => <["Organizer_Email" := Py.VStr (Py.strip group1)]> detail_data
        | None => detail_data
        end
    | None => detail_data
    end
  else detail_data.

(** The code of the competition and the person to contact, read off the
    first card of the page. *)
Definition club_card (soup : Soup.node) (detail_data : record) : record :=
  match Soup.find "div" (Soup.has_class "club-card") soup with
  | Some card =>
      let card_text := Soup.get_text newline true card in
      let detail_data :=
        match re_search "Code compétition\s*:\s*(\d+)" false card_text with
        | Some (_, group1) => <["Competition_Code" := Py.VStr (Py.strip group1)]> detail_data
        | None => detail_data
        end in
      match re_search "Personnes à contacter.*\n*(.+)" false card_text with
      | Some (_, group1) =>
          <["Contact_Person" := Py.VStr (Py.take_chars 100 (Py.strip group1))]> detail_data
      | None => detail_data
      end
  | None => detail_data
  end.

(** The loop over the cards of the events: a card with a heading appends
    the text of the heading. *)
Fixpoint events_loop (event_cards : list Soup.node) (events_list : list string) : list string :=
  match event_cards with
  | [] => events_list
  | card :: rest =>
      match Soup.find "h3" (Soup.has_class "text-normal") card with
      | Some header => events_loop rest (events_list ++ [Soup.get_text "" true header])
      | None => events_loop rest events_list
      end
  end.

(** The cards of the section of the events, none when the section is not
    there. *)
Definition event_cards (soup : Soup.node) : list Soup.node :=
  match Soup.find "section" (Soup.attr_is "id" "epreuves") soup with
  | Some events_section => Soup.find_all "div" (Soup.has_class "club-card") events_section
  | None => []
  end.

Definition events (soup : Soup.node) : list string := events_loop (event_cards soup) [].

(** The last loop: a text field that is not there yet is set to [''];
    [Events_Count], set just before, is left alone. *)
Definition ensure_field (detail_data : record) (field : string) : record :=
  if has_key field detail_data then detail_data
  else <[field := Py.VStr ""]> detail_data.

Definition ensure_fields (detail_data : record) : record :=
  let detail_data :=
    fold_left ensure_field
      ["Organizer_Name"; "Organizer_Address"; "Organizer_Phone";
       "Organizer_Email"; "Organizer_Website"; "Stadium_Address";
       "Competition_Code"; "Contact_Person"; "Events_List"] detail_data in
  if has_key "Events_Count" detail_data then detail_data
  else <["Events_Count" := Py.VInt 0]> detail_data.

(** [parse_detail_page], from the parsed document on. *)
Definition parse_detail_page_soup (soup : Soup.node) : record :=
  let detail_data : record := ∅ in
  let info_section := Soup.find "section" (Soup.attr_is "id" "infoPratique") soup in
  let detail_data := organizer info_section detail_data in
  let detail_data := email_fallback info_section detail_data in
  let detail_data := club_card soup detail_data in
  let events_list := events soup in
  let detail_data := <["Events_List" := Py.VStr (Py.join "; " events_list)]> detail_data in
  let detail_data :=
    <["Events_Count" := Py.VInt (Z.of_nat (length events_list))]> detail_data in
  ensure_fields detail_data.

End Detail.

(** ** Dates

    A [datetime] at midnight is the ordinal of its day, day 1 being
    0001-01-01 as in [date.toordinal].  Arithmetic that leaves the range of
    [datetime] raises [OverflowError]: it has no result here. *)

Module Date.

Definition MINORD : Z := 1.
Definition MAXORD : Z := 3652059.

Definition is_leap (year : Z) : bool :=
  (year mod 4 =? 0) && (negb (year mod 100 =? 0) || (year mod 400 =? 0)).

Definition days_before_year (year : Z) : Z :=
  let y := year - 1 in y * 365 + y / 4 - y / 100 + y / 400.

Definition DAYS_IN_MONTH : list Z := [31; 28; 31; 30; 31; 30; 31; 31; 30; 31; 30; 31].

Definition days_in_month (year month : Z) : Z :=
  if (month =? 2) && is_leap year then 29
  else nth (Z.to_nat (month - 1)) DAYS_IN_MONTH 0.

Definition days_before_month (year month : Z) : Z :=
  fold_right Z.add 0 (firstn (Z.to_nat (month - 1)) DAYS_IN_MONTH)
  + (if (2 <? month) && is_leap year then 1 else 0).

(** [datetime(year, month, day)], [ValueError] being [None]. *)
Definition ymd (year month day : Z) : option Z :=
  if (1 <=? year) && (year <=? 9999) && (1 <=? month) && (month <=? 12)
     && (1 <=? day) && (day <=? days_in_month year month)
  then Some (days_before_year year + days_before_month year month + day)
  else None.

(** [timedelta(days=n)]: a number of days of magnitude 999999999 at most. *)
Definition timedelta (days : Z) : option Z :=
  if Z.abs days <=? 999999999 then Some days else None.

(** [d + delta] *)
Definition add (d delta : Z) : option Z :=
  let r := d + delta in
  if (MINORD <=? r) && (r <=? MAXORD) then Some r else None.

(** The year, month and day of an ordinal, as [date.fromordinal] finds
    them. *)
Definition ord2ymd (ordinal : Z) : Z * Z * Z :=
  let n := ordinal - 1 in
  let n400 := n / 146097 in let n := n mod 146097 in
  let n100 := n / 36524 in let n := n mod 36524 in
  let n4 := n / 1461 in let n := n mod 1461 in
  let n1 := n / 365 in let n := n mod 365 in
  let year := n400 * 400 + 1 + n100 * 100 + n4 * 4 + n1 in
  if (n1 =? 4) || (n100 =? 4) then (year - 1, 12, 31)
  else
    let leapyear := (n1 =? 3) && (negb (n4 =? 24) || (n100 =? 3)) in
    let month := Z.shiftr (n + 50) 5 in
    let preceding :=
      fold_right Z.add 0 (firstn (Z.to_nat (month - 1)) DAYS_IN_MONTH)
      + (if (2 <? month) && leapyear then 1 else 0) in
    if n <? preceding then
      let month := month - 1 in
      let preceding :=
        preceding - (nth (Z.to_nat (month - 1)) DAYS_IN_MONTH 0
                     + (if (month =? 2) && leapyear then 1 else 0)) in
      (year, month, n - preceding + 1)
    else (year, month, n - preceding + 1).

(** A number written on at least [width] digits. *)
Definition zero_padded (width : nat) (n : Z) : string :=
  let s := pretty n in
  string_of_list_ascii (replicate (width - String.length s) "0"%char) +:+ s.

(** [d.date().isoformat()], the year on four digits: this is
    [d.strftime("%Y-%m-%d")] for the years from 1000 on; for the years
    before, the C library decides how [%Y] is padded. *)
Definition isoformat (d : Z) : string :=
  let '(year, month, day) := ord2ymd d in
  zero_padded 4 year +:+ "-" +:+ zero_padded 2 month +:+ "-" +:+ zero_padded 2 day.

Fixpoint digits (s : string) (acc : Z) : option Z :=
  match s with
  | EmptyString => Some acc
  | String c s' =>
      match Ascii.is_nat c with
      | Some k => digits s' (acc * 10 + Z.of_nat k)
      | None => None
      end
  end.

(** A date written with four, two and two ASCII digits, read as
    [datetime.strptime(s, "%Y-%m-%d")] reads it, [None] standing for
    [ValueError].  Any other text gives [None] here, though [strptime] takes
    some of them, a month or a day written with one digit among them. *)
Definition fromisoformat (s : string) : option Z :=
  if (String.length s =? 10)%nat
     && String.eqb (String.substring 4 1 s) "-"
     && String.eqb (String.substring 7 1 s) "-" then
    year ← digits (String.substring 0 4 s) 0;
    month ← digits (String.substring 5 2 s) 0;
    day ← digits (String.substring 8 2 s) 0;
    ymd year month day
  else None.

End Date.

(** ** Effects

    The functions that reach the network run in a state monad over the
    outside world, the store of the dictionaries and the trace of what the
    program did.  A computation returns, raises, or is cut short for want
    of fuel: the two [while True] loops of the source need not end. *)

Inductive exn := KeyError | ValueError | OverflowError.

#[global] Instance exn_eq_dec : EqDecision exn.
Proof. solve_decision. Defined.

Inductive outcome (A : Type) :=
| Return (a : A)
| Raise (e : exn)
| OutOfFuel.

Arguments Return {A} a.
Arguments Raise {A} e.
Arguments OutOfFuel {A}.

(** What the program does that can be seen from outside: a call of
    [_session.get], a message of [st.error] or of [st.warning], a call of
    [time.sleep]. *)
Inductive event :=
| Get (url : string) (params : gmap string string)
| Error (page : Z)
| Warning (url : Py.value)
| Sleep (seconds : Q).

(** A dictionary handed around by reference is a location of the store. *)
Definition loc := nat.

(** What the program takes from outside: the site, the HTML parser, the
    [re] engine, the case table of [str.lower] and the formatting of dates.

    - [http_get w url params] is [_session.get(url, params=params,
      timeout=30)] followed by [response.raise_for_status()]: the text of the
      response, or [None] when either raises, and the world afterwards.  The
      session reads the address it is given as [str(url)]; it raises, among
      other cases, on an address it cannot send a request to.
    - [BeautifulSoup html] is [BeautifulSoup(html, 'html.parser')]: the
      tree, or [None] when the parser raises, as it does on a marked section
      of a kind it does not know.
    - [re_search pattern ignorecase text] is [re.search]: on a match,
      [group(0)] and [group(1)].
    - [strptime s] is [datetime.strptime(s, "%Y-%m-%d")], [None] standing for
      [ValueError]; [strftime d] is [d.strftime("%Y-%m-%d")]. *)
Class Platform := {
  World : Type;
  http_get : World -> string -> gmap string string -> option string * World;
  BeautifulSoup : string -> option Soup.node;
  re_search : string -> bool -> string -> option (string * string);
  str_lower : string -> string;
  strptime : string -> option Z;
  strftime : Z -> string
}.

Section Effects.

Context `{Platform}.

Record state := State {
  world : World;
  heap : loc -> record;
  log : list event
}.

Definition M (A : Type) : Type := state -> outcome A * state.

#[global] Instance M_ret : MRet M := fun A a st => (Return a, st).

#[global] Instance M_bind : MBind M := fun A B k m st =>
  match m st with
  | (Return a, st') => k a st'
  | (Raise e, st') => (Raise e, st')
  | (OutOfFuel, st') => (OutOfFuel, st')
  end.

Definition raise {A} (e : exn) : M A := fun st => (Raise e, st).

Definition out_of_fuel {A} : M A := fun st => (OutOfFuel, st).

(** [None] raises [e]. *)
Definition or_raise {A} (e : exn) (o : option A) : M A :=
  match o with Some a => mret a | None => raise e end.

Definition emit (e : event) : M unit := fun st =>
  (Return tt, State (world st) (heap st) (log st ++ [e])).

(** [time.sleep(seconds)] *)
Definition sleep (seconds : Q) : M unit := emit (Sleep seconds).

(** [comp] read through its reference. *)
Definition read (comp : loc) : M record := fun st => (Return (heap st comp), st).

(** [comp.update(detail_data)]: the keys of [detail_data] are written over
    those of the dictionary at [comp], which keeps its other keys. *)
Definition update (comp : loc) (detail_data : record) : M unit := fun st =>
  (Return tt,
   State (world st)
     (fun l => if decide (l = comp) then detail_data ∪ heap st l else heap st l)
     (log st)).

(** A call of the session. *)
Definition get (url : string) (params : gmap string string) : M (option string) :=
  fun st =>
    let '(response, w) := http_get (world st) url params in
    (Return response, State w (heap st) (log st ++ [Get url params])).

(** The two parsers on the text of a response: [None] when [BeautifulSoup]
    raises. *)
Definition parse_competitions (html : string) (page : Z) : option (list record) :=
  match BeautifulSoup html with
  | Some soup => Some (parse_competitions_soup re_search soup page)
  | None => None
  end.

Definition parse_detail_page (html : string) : option record :=
  match BeautifulSoup html with
  | Some soup => Some (parse_detail_page_soup re_search str_lower soup)
  | None => None
  end.

(** *** Listing pages *)

(** The request and the parsing are both inside the [try]: whichever
    raises, the handler shows the error and returns no record. *)
Definition scrape_page (params : gmap string string) (page : Z)
    : M (list record * bool) :=
  let params_with_page := <["frmposition" := pretty page]> params in
  response ← get BASE_URL params_with_page;
  match response with
  | Some text =>
      match parse_competitions text page with
      | Some competitions => mret (competitions, true)
      | None => emit (Error page);; mret ([], false)
      end
  | None => emit (Error page);; mret ([], false)
  end.

(** [not competitions] *)
Definition is_empty {A} (l : list A) : bool :=
  match l with [] => true | _ :: _ => false end.

(** The [while True] loop over the pages, which the two modes share word
    for word, the status text and the progress bar left at [None]. *)
Fixpoint pages_loop (fuel : nat) (params : gmap string string) (page : Z)
    (all_competitions : list record) : M (list record) :=
  match fuel with
  | O => out_of_fuel
  | S fuel' =>
      '(competitions, success) ← scrape_page params page;
      if negb success || is_empty competitions then mret all_competitions
      else
        let all_competitions := (all_competitions ++ competitions)%list in
        if (length competitions <? COMPETITIONS_PER_PAGE)%nat then mret all_competitions
        else
          sleep DEFAULT_DELAY;;
          pages_loop fuel' params (page + 1) all_competitions
  end.

(** The [while current_start <= end_dt] loop of the batch mode. *)
Fixpoint batch_loop (fuel pfuel : nat) (params : gmap string string)
    (batch_days current_start end_dt : Z) (all_competitions : list record)
    : M (list record) :=
  match fuel with
  | O => out_of_fuel
  | S fuel' =>
      if current_start <=? end_dt then
        delta ← or_raise OverflowError (Date.timedelta batch_days);
        upper ← or_raise OverflowError (Date.add current_start delta);
        let current_end := Z.min upper end_dt in
        let batch_start_str := strftime current_start in
        let batch_end_str := strftime current_end in
        let batch_params :=
          <["frmdate2" := batch_end_str]> (<["frmdate1" := batch_start_str]> params) in
        all_competitions ← pages_loop pfuel batch_params 1 all_competitions;
        one ← or_raise OverflowError (Date.timedelta 1);
        next ← or_raise OverflowError (Date.add current_end one);
        batch_loop fuel' pfuel params batch_days next end_dt all_competitions
      else mret all_competitions
  end.

(** [params[key]] parsed as a date. *)
Definition date_param (params : gmap string string) (key : string) : M Z :=
  s ← or_raise KeyError (params !! key);
  or_raise ValueError (strptime s).

Definition scrape_competitions (fuel pfuel : nat) (params : gmap string string)
    (batch_mode : bool) (batch_days : Z) : M (list record) :=
  if batch_mode then
    start_dt ← date_param params "frmdate1";
    end_dt ← date_param params "frmdate2";
    batch_loop fuel pfuel params batch_days start_dt end_dt []
  else pages_loop pfuel params 1 [].

(** *** Detail pages *)

(** The session is called with [url] whatever it is; the request and the
    parsing are both inside the [try], whose handler turns every failure
    into a warning and [None]. *)
Definition scrape_detail_page (url : Py.value) : M (option record) :=
  response ← get (Py.str url) ∅;
  match response with
  | Some text =>
      match parse_detail_page text with
      | Some detail_data => mret (Some detail_data)
      | None => emit (Warning url);; mret None
      end
  | None => emit (Warning url);; mret None
  end.

(** [comp.get('Detail_URL')] taken as a condition. *)
Definition has_detail_url (comp : record) : bool :=
  from_option Py.truthy false (comp !! "Detail_URL").

(** The body of the loop over the records, after the test of the link:
    fetch, merge on success, and sleep. *)
Definition enrich (comp : loc) : M unit :=
  r ← read comp;
  detail_data ← scrape_detail_page (default (Py.VStr "") (r !! "Detail_URL"));
  match detail_data with
  | Some detail_data =>
      if bool_decide (detail_data ≠ ∅) then update comp detail_data else mret tt
  | None => mret tt
  end;;
  sleep DEFAULT_DELAY.

Fixpoint detail_loop (competitions updated_competitions : list loc) : M (list loc) :=
  match competitions with
  | [] => mret updated_competitions
  | comp :: rest =>
      r ← read comp;
      if negb (has_detail_url r) then detail_loop rest (updated_competitions ++ [comp])
      else
        enrich comp;;
        detail_loop rest (updated_competitions ++ [comp])
  end.

Definition scrape_detail_pages (competitions : list loc) : M (list loc) :=
  if is_empty competitions then mret competitions
  else detail_loop competitions [].

(** *** The enrichment in the words of the specification

    The driver visits the records in the order of the list, each once.  A
    record whose link is empty is passed over: nothing is done.  For a
    record with a link the session is called once, with the link; when the
    page comes and is parsed, what the parser found is merged into the
    record, once, and otherwise a warning is given; in both cases the driver
    then waits [DEFAULT_DELAY]. *)

Inductive visit : loc -> state -> state -> Prop :=
| visit_skipped comp st :
    has_detail_url (heap st comp) = false ->
    visit comp st st
| visit_failed comp st url response w :
    heap st comp !! "Detail_URL" = Some url ->
    Py.truthy url = true ->
    http_get (world st) (Py.str url) ∅ = (response, w) ->
    response ≫= parse_detail_page = None ->
    visit comp st
      (State w (heap st)
         (log st ++ [Get (Py.str url) ∅; Warning url; Sleep DEFAULT_DELAY]))
| visit_merged comp st url text w detail_data :
    heap st comp !! "Detail_URL" = Some url ->
    Py.truthy url = true ->
    http_get (world st) (Py.str url) ∅ = (Some text, w) ->
    parse_detail_page text = Some detail_data ->
    visit comp st
      (State w
         (fun l => if decide (l = comp) then detail_data ∪ heap st l else heap st l)
         (log st ++ [Get (Py.str url) ∅; Sleep DEFAULT_DELAY])).

Inductive visits : list loc -> state -> state -> Prop :=
| visits_nil st : visits [] st st
| visits_cons comp rest st st1 st' :
    visit comp st st1 ->
    visits rest st1 st' ->
    visits (comp :: rest) st st'.

(** What the visit of the record [r] leaves in the trace: nothing when its
    link is empty, and otherwise the call of the session, the warning if the
    page did not come or was not parsed, and the pause. *)
Definition visit_trace (r : record) (trace : list event) : Prop :=
  match r !! "Detail_URL" with
  | Some url =>
      if Py.truthy url then
        trace = [Get (Py.str url) ∅; Sleep DEFAULT_DELAY]
        \/ trace = [Get (Py.str url) ∅; Warning url; Sleep DEFAULT_DELAY]
      else trace = []
  | None => trace = []
  end.

(** *** The paginations of a run of the batch mode

    [batch_call pfuel params batch_days end_dt cur acc st query acc' st']:
    the loop over the batches, entered at [cur] with the records [acc] in
    the state [st], comes to call the pagination with the query [query],
    the records [acc'] and the state [st']. *)

Inductive batch_call (pfuel : nat) (params : gmap string string) (batch_days end_dt : Z)
    : Z -> list record -> state -> gmap string string -> list record -> state -> Prop :=
| call_now cur acc st delta upper :
    cur <= end_dt ->
    Date.timedelta batch_days = Some delta ->
    Date.add cur delta = Some upper ->
    batch_call pfuel params batch_days end_dt cur acc st
      (<["frmdate2" := strftime (Z.min upper end_dt)]> (<["frmdate1" := strftime cur]> params))
      acc st
| call_later cur acc st delta upper acc1 st1 next query acc' st' :
    cur <= end_dt ->
    Date.timedelta batch_days = Some delta ->
    Date.add cur delta = Some upper ->
    pages_loop pfuel
      (<["frmdate2" := strftime (Z.min upper end_dt)]> (<["frmdate1" := strftime cur]> params))
      1 acc st = (Return acc1, st1) ->
    Date.add (Z.min upper end_dt) 1 = Some next ->
    batch_call pfuel params batch_days end_dt next acc1 st1 query acc' st' ->
    batch_call pfuel params batch_days end_dt cur acc st query acc' st'.

(** *** The pagination in the words of the specification

    A page is fetched and parsed.  The loop stops (a) when the fetch fails,
    (b) when the page has no record, (c) after it has added a page of fewer
    than [COMPETITIONS_PER_PAGE] records; on a full page it adds the records,
    waits [DEFAULT_DELAY] and goes on with the next page number. *)

Definition slept (st : state) : state :=
  State (world st) (heap st) (log st ++ [Sleep DEFAULT_DELAY]).

Inductive pagination (params : gmap string string)
    : Z -> list record -> state -> list record -> state -> Prop :=
| pagination_failure page acc st competitions st' :
    scrape_page params page st = (Return (competitions, false), st') ->
    pagination params page acc st acc st'
| pagination_empty page acc st st' :
    scrape_page params page st = (Return ([], true), st') ->
    pagination params page acc st acc st'
| pagination_partial page acc st competitions st' :
    scrape_page params page st = (Return (competitions, true), st') ->
    competitions <> [] ->
    (length competitions < COMPETITIONS_PER_PAGE)%nat ->
    pagination params page acc st (acc ++ competitions) st'
| pagination_full page acc st competitions st1 result st' :
    scrape_page params page st = (Return (competitions, true), st1) ->
    (COMPETITIONS_PER_PAGE <= length competitions)%nat ->
    pagination params (page + 1) (acc ++ competitions) (slept st1) result st' ->
    pagination params page acc st result st'.

(** The batch mode in the words of the specification: the pagination is
    run on each batch in turn, the dates of the batch put in the query, and
    the results are chained in the order of the batches. *)
Fixpoint paginate_batches (pfuel : nat) (params : gmap string string)
    (batches : list (Z * Z)) (all_competitions : list record) : M (list record) :=
  match batches with
  | [] => mret all_competitions
  | (batch_start, batch_end) :: rest =>
      let batch_params :=
        <["frmdate2" := strftime batch_end]> (<["frmdate1" := strftime batch_start]> params) in
      all_competitions ← pages_loop pfuel batch_params 1 all_competitions;
      paginate_batches pfuel params rest all_competitions
  end.

(** The pauses recorded in a trace. *)
Definition is_sleep (e : event) : bool :=
  match e with Sleep _ => true | _ => false end.

Definition sleeps (trace : list event) : nat := length (List.filter is_sleep trace).

End Effects.

(** ** The batch splitter in the words of the specification

    Consecutive batches [[cur, min(cur + batch_days, end)]], [cur] moving to
    the day after the end of the batch until it is past [end]. *)

Module Splitter.

Fixpoint batches_from (n : nat) (cur end_dt batch_days : Z) : list (Z * Z) :=
  match n with
  | O => []
  | S n' =>
      if cur <=? end_dt then
        let batch_end := Z.min (cur + batch_days) end_dt in
        (cur, batch_end) :: batches_from n' (batch_end + 1) end_dt batch_days
      else []
  end.

Definition batches (start_dt end_dt batch_days : Z) : list (Z * Z) :=
  batches_from (Z.to_nat (end_dt - start_dt + 1)) start_dt end_dt batch_days.

(** The days of a batch, first to last. *)
Definition days (batch : Z * Z) : list Z :=
  seqZ (fst batch) (snd batch - fst batch + 1).

(** The two dates that the loop computes for a batch, its start plus
    [batch_days] and the day after its end, are dates of [datetime]: neither
    is past 9999-12-31. *)
Definition computable (batch_days : Z) (batch : Z * Z) : Prop :=
  fst batch + batch_days <= Date.MAXORD /\ snd batch + 1 <= Date.MAXORD.

End Splitter.

(** ** Absolute addresses

    An address is absolute when it starts with a scheme: a letter, then
    letters, digits, [+], [-] or [.], then a colon. *)

Definition is_alpha (c : ascii) : bool :=
  let n := nat_of_ascii c in
  ((65 <=? n) && (n <=? 90) || (97 <=? n) && (n <=? 122))%nat.

Definition is_scheme_char (c : ascii) : bool :=
  let n := nat_of_ascii c in
  (is_alpha c || (48 <=? n) && (n <=? 57) || (n =? 43) || (n =? 45) || (n =? 46))%nat.

Fixpoint scheme_rest (s : string) : bool :=
  match s with
  | EmptyString => false
  | String c s' =>
      if Ascii.eqb c ":" then true
      else if is_scheme_char c then scheme_rest s' else false
  end.

Definition absolute_url (u : string) : bool :=
  match u with
  | EmptyString => false
  | String c s' => is_alpha c && scheme_rest s'
  end.

(** ** Sample documents and a sample platform *)

Module Example.

Import Soup.

(** A [re] engine for texts in which none of the patterns of the source
    occurs. *)
Definition no_match (pattern : string) (ignorecase : bool) (text : string)
    : option (string * string) := None.

Definition td (contents : list node) : node := Tag "td" ∅ [] contents.

Definition anchor (href : string) : node :=
  Tag "a" {["href" := href]} [] [NavigableString "Fiche"].

(** A row of the listing, its last cell linking to [href]. *)
Definition row (href : string) : node :=
  Tag "tr" ∅ ["clignotant"]
    [td [NavigableString " 21/12 "]; td [NavigableString "Cross de Noël"];
     td [NavigableString "Paris"]; td [NavigableString "Cross"];
     td [NavigableString "Départemental"]; td []; td [anchor href]].

(** A row that heads a month: one cell. *)
Definition month_row : node :=
  Tag "tr" ∅ ["clignotant"] [td [NavigableString "Décembre 2025"]].

Definition document (contents : list node) : node := Tag "[document]" ∅ [] contents.

(** [str.lower] on a text whose capital letters are all ASCII. *)
Definition lower (s : string) : string :=
  string_of_list_ascii
    (map (fun c : ascii =>
            let n := nat_of_ascii c in
            if ((65 <=? n) && (n <=? 90))%nat then ascii_of_nat (n + 32) else c)
       (list_ascii_of_string s)).

Definition paragraph_of (s : string) : node := Tag "p" ∅ [] [NavigableString s].

Definition mail_link (href : string) : node :=
  Tag "a" {["href" := href]} [] [NavigableString "Contact"].

Definition event_card (name : string) : node :=
  Tag "div" ∅ ["club-card"] [Tag "h3" ∅ ["text-normal"] [NavigableString name]].

(** The section of practical information of a detail page: a paragraph
    with one address and a mail link with another. *)
Definition practical : node :=
  Tag "section" {["id" := "infoPratique"]} []
    [paragraph_of "Email : autre@club.fr";
     Tag "p" ∅ [] [mail_link "mailto:organisation@club.fr "]].

(** The detail page: that section and two events. *)
Definition detail : node :=
  document
    [practical;
     Tag "section" {["id" := "epreuves"]} []
       [event_card " 100m "; event_card "Poids"]].

(** A detail page whose only mail link is in the footer, outside the
    section of practical information, which is not there at all. *)
Definition footer_only : node :=
  document [Tag "footer" ∅ [] [mail_link "mailto:contact@athle.fr"]].

Definition listing (rows : list node) : node := document [Tag "table" ∅ [] rows].

(** A text that [html.parser] refuses: a marked section of a kind it does
    not know. *)
Definition rejected : string := "<![x[ a ]]>".

(** A parser for the sample site: the text of a response is either the
    word [detail], for the detail page above, or a number, for a listing of
    that many rows, or the text [rejected]. *)
Definition sample_parser (html : string) : option node :=
  if String.eqb html rejected then None
  else if String.eqb html "detail" then Some detail
  else
    match Date.digits html 0 with
    | Some n => Some (listing (replicate (Z.to_nat n) (row "/competitions/a")))
    | None => Some (document [])
    end.

(** The site as a script: the answers to the successive requests, in
    order; when the script is over every request fails. *)
#[warnings="-future-coercion-class-field"]
Definition scripted : Platform := {|
  World := list (option string);
  http_get := fun w _ _ => match w with [] => (None, []) | r :: w' => (r, w') end;
  BeautifulSoup := sample_parser;
  re_search := no_match;
  str_lower := lower;
  strptime := Date.fromisoformat;
  strftime := Date.isoformat
|}.

(** The scripted site before the first request, the store holding the
    dictionaries [records] at the locations 0, 1, ... *)
Definition start (script : list (option string)) (records : list record)
    : @state scripted :=
  @State scripted script (fun l => default ∅ (records !! l)) [].

(** The query of the form, for a range of dates. *)
Definition query (date1 date2 : string) : gmap string string :=
  <["frmdate1" := date1]> (<["frmdate2" := date2]> (<["frmsaisonffa" := "2026"]> ∅)).

(** A record as the listing parser builds it, with and without a link. *)
Definition linked : record :=
  competition no_match (row_cells (row "https://www.athle.fr/competitions/a")) 1.

Definition unlinked : record :=
  competition no_match (row_cells (Tag "tr" ∅ ["clignotant"] (replicate 7 (td [])))) 1.

End Example.

(** ** Traces and requests *)

Definition is_get (e : event) : bool :=
  match e with Get _ _ => true | _ => false end.

(** The requests recorded in a trace, in order. *)
Definition gets (trace : list event) : list event := List.filter is_get trace.


(** The call of the session that the driver makes for a record: one for
    a link that is true as a condition, none otherwise. *)
Definition detail_request (comp : record) : list event :=
  match comp !! "Detail_URL" with
  | Some url => if Py.truthy url then [Get (Py.str url) ∅] else []
  | None => []
  end.


Section Answers.

Context `{Platform}.

(** What the site answers to [n] requests in a row for the pages [page],
    [page + 1], ... of a query, from the world [w] on. *)
Fixpoint answers (n : nat) (w : World) (params : gmap string string) (page : Z)
    : list (option string) :=
  match n with
  | O => []
  | S n' =>
      let '(response, w') := http_get w BASE_URL (<["frmposition" := pretty page]> params) in
      response :: answers n' w' params (page + 1)
  end.

(** The records of a page, given the answer to its request: those the
    parser finds in the text, none when the request failed or the parser
    refused the text. *)
Definition page_records (page : Z) (response : option string) : list record :=
  default [] (response ≫= fun text => parse_competitions text page).

(** The records of the pages [page], [page + 1], ..., given the answers. *)
Fixpoint pages_from (page : Z) (responses : list (option string)) : list (list record) :=
  match responses with
  | [] => []
  | response :: rest => page_records page response :: pages_from (page + 1) rest
  end.

End Answers.

(** [len(s)]: the number of code points. *)
Fixpoint code_points (s : string) : nat :=
  match s with
  | EmptyString => O
  | String c s' => ((if Py.is_lead c then 1 else 0) + code_points s')%nat
  end.

(** ** The final table

    [pd.DataFrame(competitions)] has a column for every key of some record
    and a row for every record.  What the function reads of it is whether a
    name is a column; the table it returns is held as the list of its
    columns, in order, and its rows, each a dictionary over these columns.
    The rows are what pandas holds when every record has every column, as
    the records of the parsers do, and they are used below in this case
    only: where a record lacks a column, pandas fills the cell with [NaN]
    and may turn the integers of the column into floats, which the rows
    here do not follow. *)

Definition column_order : list string :=
  ["Competition_ID"; "Date"; "Event"; "Location"; "Type"; "Level";
   "Organizer_Name"; "Organizer_Address"; "Organizer_Phone"; "Organizer_Email";
   "Organizer_Website"; "Stadium_Address"; "Competition_Code"; "Contact_Person";
   "Events_List"; "Events_Count"; "Detail_URL"; "Page"].

Record DataFrame := {
  columns : list string;
  rows : list record
}.

(** [col in df.columns] for [df = pd.DataFrame(competitions)] *)
Definition is_column (competitions : list record) (col : string) : bool :=
  existsb (fun r : record => bool_decide (is_Some (r !! col))) competitions.

(** [df[cols]]: the row cut down to the columns [cols]. *)
Definition select (cols : list string) (r : record) : record :=
  filter (fun kv : string * Py.value => kv.1 ∈ cols) r.

Definition create_final_dataframe (competitions : list record) : DataFrame :=
  if is_empty competitions then {| columns := []; rows := [] |}
  else
    let existing_cols := List.filter (is_column competitions) column_order in
    {| columns := existing_cols; rows := map (select existing_cols) competitions |}.

(** ** The script

    What the page does when the button is pressed: it checks the two dates,
    runs the listing phase, stops when nothing was found, runs the detail
    phase if it is asked for, and builds the table.  The widgets that show
    the progress and the table are left out.  [st.stop()] ends the run; an
    exception of the scraping is caught and shown. *)

(** A record with the eighteen attributes of the output and no other. *)
Definition full_record (r : record) : Prop :=
  forall key, is_Some (r !! key) <-> In key (listing_fields ++ enrichment_fields).

Inductive shown :=
| InvalidDate
| NoCompetitions
| Table (df : DataFrame)
| Failed (e : exn).

Section Script.

Context `{Platform}.

Definition base_params (season start_date end_date : string) : gmap string string :=
  <["frmpostback" := "true"]> (
  <["frmbase" := "calendrier"]> (
  <["frmmode" := "1"]> (
  <["frmespace" := "0"]> (
  <["frmsaisonffa" := season]> (
  <["frmdate1" := start_date]> (
  <["frmdate2" := end_date]> (
  <["frmposition" := "1"]> ∅))))))).

(** The dictionaries of the listing phase are objects of the store from
    then on: the list that is handed to the detail phase refers to them. *)
Definition alloc (competitions : list record) (st : state) : state :=
  State (world st) (fun l => default (heap st l) (competitions !! l)) (log st).

Definition start_scraping (fuel pfuel : nat) (season start_date end_date : string)
    (batch_days : Z) (batch_mode scrape_details : bool) : M shown := fun st =>
  match strptime start_date, strptime end_date with
  | Some _, Some _ =>
      match scrape_competitions fuel pfuel (base_params season start_date end_date)
              batch_mode batch_days st with
      | (Return competitions, st1) =>
          if is_empty competitions then (Return NoCompetitions, st1)
          else if scrape_details then
            match scrape_detail_pages (seq 0 (length competitions))
                    (alloc competitions st1) with
            | (Return refs, st2) =>
                (Return (Table (create_final_dataframe (map (heap st2) refs))), st2)
            | (Raise e, st2) => (Return (Failed e), st2)
            | (OutOfFuel, st2) => (OutOfFuel, st2)
            end
          else (Return (Table (create_final_dataframe competitions)), st1)
      | (Raise e, st1) => (Return (Failed e), st1)
      | (OutOfFuel, st1) => (OutOfFuel, st1)
      end
  | _, _ => (Return InvalidDate, st)
  end.

End Script.

(** ** A second sample: two paragraphs with the name of the organizer, and
    one with the telephone after them *)

Module Sample.

Import Soup.

Definition first_name : node :=
  Tag "p" ∅ [] [NavigableString "Nom de l'organisateur : Club A"].

Definition last_name : node :=
  Tag "p" ∅ [] [NavigableString "Nom de l'organisateur : Club B"].

Definition telephone : node :=
  Tag "p" ∅ [] [NavigableString "Téléphone : 01 02 03 04 05"].

Definition two_names : node :=
  Tag "section" {["id" := "infoPratique"]} [] [first_name; last_name; telephone].

Definition page : node := Tag "[document]" ∅ [] [two_names].

End Sample.

(** ** Facts about the Python strings *)

Lemma is_alpha_not_slash (c : ascii) (s : string) :
  is_alpha c = true -> Py.startswith "/" (String c s) = false.
Proof.
  destruct c as [[] [] [] [] [] [] [] []]; (discriminate || reflexivity).
Qed.

Lemma absolute_url_not_rooted (u : string) :
  absolute_url u = true -> Py.startswith "/" u = false.
Proof.
  destruct u as [|c s]; [discriminate|]. simpl absolute_url.
  intros [Hc _]%andb_true_iff. by apply is_alpha_not_slash.
Qed.

Lemma absolute_url_site (href : string) :
  absolute_url ("https://www.athle.fr" +:+ href) = true.
Proof. reflexivity. Qed.

Lemma absolute_url_nonempty (u : string) : absolute_url u = true -> Py.nonempty u = true.
Proof. by destruct u. Qed.

(** ** The listing parser: rows *)

Section ListingFacts.

Variable re : string -> bool -> string -> option (string * string).

Lemma parse_rows_acc (rows : list Soup.node) (page : Z) (acc : list record) :
  parse_rows re rows page acc = (acc ++ parse_rows re rows page [])%list.
Proof.
  revert acc. induction rows as [|row rows IH]; intros acc; simpl.
  - by rewrite app_nil_r.
  - destruct (length _ <? 7)%nat; [apply IH|].
    rewrite (IH (acc ++ _)%list), (IH [_]). by rewrite <- app_assoc.
Qed.

Lemma parse_rows_filter (rows : list Soup.node) (page : Z) :
  parse_rows re rows page [] =
  map (fun row => competition re (row_cells row) page) (List.filter enough_cells rows).
Proof.
  induction rows as [|row rows IH]; [done|]. simpl.
  unfold enough_cells at 1.
  destruct (Nat.ltb_spec (length (row_cells row)) 7) as [Hlt|Hge].
  - apply Nat.leb_gt in Hlt. by rewrite Hlt.
  - apply Nat.leb_le in Hge. rewrite Hge. simpl.
    by rewrite parse_rows_acc, IH.
Qed.

Lemma parse_rows_app (rows1 rows2 : list Soup.node) (page : Z) (acc : list record) :
  parse_rows re (rows1 ++ rows2) page acc =
  parse_rows re rows2 page (parse_rows re rows1 page acc).
Proof.
  revert acc. induction rows1 as [|row rows1 IH]; intros acc; [done|]. simpl.
  destruct (length _ <? 7)%nat; apply IH.
Qed.

(** C7. The records of a listing page are those of its rows of seven cells
    or more, one per row and in the order of the page; a row of fewer than
    seven cells leaves no record, and taking it out of the page changes
    nothing to what the rows before and after it yield. *)
Theorem short_rows_are_skipped (soup : Soup.node) (page : Z) :
  parse_competitions_soup re soup page =
    map (fun row => competition re (row_cells row) page)
      (List.filter enough_cells (Soup.find_all "tr" (Soup.has_class "clignotant") soup))
  /\ forall (before after : list Soup.node) (row : Soup.node) (acc : list record),
       (length (row_cells row) < 7)%nat ->
       parse_rows re (before ++ row :: after) page acc =
       parse_rows re (before ++ after) page acc.
Proof.
  split.
  - unfold parse_competitions_soup. apply parse_rows_filter.
  - intros before after row acc Hshort.
    rewrite !parse_rows_app. simpl.
    apply Nat.ltb_lt in Hshort. by rewrite Hshort.
Qed.

End ListingFacts.

(** The month row of the sample has one cell: the page with it and the page
    without it give the same record. *)
Lemma short_rows_are_skipped_witness :
  (length (row_cells Example.month_row) < 7)%nat
  /\ parse_rows Example.no_match
       ([Example.row "/competitions/a"] ++ Example.month_row :: [Example.row "/competitions/b"]) 1 []
     = parse_rows Example.no_match
       ([Example.row "/competitions/a"] ++ [Example.row "/competitions/b"]) 1 [].
Proof.
  split; [vm_compute; lia|].
  apply (short_rows_are_skipped Example.no_match (Example.listing []) 1).
  vm_compute; lia.
Defined.

(** ** The listing parser: the address of the detail page *)

Section DetailUrlFacts.

Variable re : string -> bool -> string -> option (string * string).

Lemma competition_detail_url (cells : list Soup.node) (page : Z) :
  competition re cells page !! "Detail_URL" = Some (Py.VStr (detail_url_of cells)).
Proof. unfold competition. by simplify_map_eq. Qed.

(** C6, as amended.  In the record of a row, [Detail_URL] is empty when the
    last cell has no anchor with an [href] that is not blank; an [href] that
    starts with a slash is put under [https://www.athle.fr], which makes it
    absolute; any other [href] is kept as it is, an absolute one among
    them. *)
Theorem detail_url_cases (cells : list Soup.node) (page : Z) :
  (7 <= length cells)%nat ->
  exists u : string,
    competition re cells page !! "Detail_URL" = Some (Py.VStr u)
    /\ (row_href cells = None -> u = "")
    /\ forall href : string, row_href cells = Some href ->
         (href = "" -> u = "")
         /\ (Py.startswith "/" href = true ->
               u = "https://www.athle.fr" +:+ href /\ absolute_url u = true)
         /\ (href <> "" -> Py.startswith "/" href = false -> u = href)
         /\ (absolute_url href = true -> u = href).
Proof.
  intros Hlen. exists (detail_url_of cells).
  split; [apply competition_detail_url|].
  unfold detail_url_of, row_href.
  apply Nat.leb_le in Hlen. rewrite Hlen.
  destruct (Soup.find "a" Soup.any (cells !!! 6%nat)) as [link|]; simpl;
    [|split; [done|intros ? [=]]].
  destruct (Soup.get "href" link) as [href|]; [|split; [done|intros ? [=]]].
  split; [intros [=]|]. intros ? [= <-].
  split; [by intros ->|].
  split; [|split].
  - intros Hslash. rewrite Hslash.
    assert (Py.nonempty href = true) as -> by (by destruct href).
    split; [done|apply absolute_url_site].
  - intros Hne Hslash. rewrite Hslash.
    by assert (Py.nonempty href = true) as -> by (by destruct href).
  - intros Habs.
    by rewrite (absolute_url_not_rooted _ Habs), (absolute_url_nonempty _ Habs).
Qed.

End DetailUrlFacts.

Lemma detail_url_cases_witness :
  exists u : string,
    competition Example.no_match (row_cells (Example.row "/competitions/a")) 1
      !! "Detail_URL" = Some (Py.VStr u)
    /\ u = "https://www.athle.fr/competitions/a".
Proof.
  destruct (detail_url_cases Example.no_match
              (row_cells (Example.row "/competitions/a")) 1) as (u & Hu & _ & Hhref).
  { vm_compute. lia. }
  exists u. split; [exact Hu|].
  destruct (Hhref "/competitions/a") as (_ & Hrooted & _); [reflexivity|].
  by destruct Hrooted.
Defined.

(** C6 as it was claimed fails on an [href] that is relative to the page:
    it is kept as it is, neither empty nor absolute. *)
Lemma detail_url_relative_counterexample :
  map (fun r : record => r !! "Detail_URL")
    (parse_competitions_soup Example.no_match
       (Example.listing [Example.row "fiche.aspx?id=1"]) 1)
  = [Some (Py.VStr "fiche.aspx?id=1")]
  /\ ~ ("fiche.aspx?id=1" = "" \/ absolute_url "fiche.aspx?id=1" = true).
Proof.
  split; [by vm_compute|].
  intros [H|H]; discriminate H.
Qed.

(** ** The detail parser *)

Section DetailFacts.

Variable re : string -> bool -> string -> option (string * string).
Variable lower : string -> string.

Lemma has_key_true (key : string) (d : record) (v : Py.value) :
  d !! key = Some v -> has_key key d = true.
Proof. unfold has_key. by intros ->. Qed.

Lemma ensure_field_keeps (d : record) (field key : string) (v : Py.value) :
  d !! key = Some v -> ensure_field d field !! key = Some v.
Proof.
  intros Hk. unfold ensure_field, has_key.
  destruct (d !! field) eqn:Hf; [done|].
  destruct (decide (field = key)) as [->|Hne]; [congruence|].
  by rewrite lookup_insert_ne.
Qed.

Lemma ensure_fields_keeps (d : record) (key : string) (v : Py.value) :
  d !! key = Some v -> ensure_fields d !! key = Some v.
Proof.
  intros Hk. unfold ensure_fields.
  set (fields := [_; _; _; _; _; _; _; _; _]).
  assert (fold_left ensure_field fields d !! key = Some v) as Hfold.
  { clearbody fields. revert d Hk.
    induction fields as [|f fields IH]; intros d Hk; [done|].
    simpl. apply IH. by apply ensure_field_keeps. }
  destruct (has_key "Events_Count" _) eqn:Hc; [done|].
  destruct (decide ("Events_Count" = key)) as [<-|Hne].
  - by rewrite (has_key_true _ _ _ Hfold) in Hc.
  - by rewrite lookup_insert_ne.
Qed.

Lemma events_loop_acc (cards : list Soup.node) (acc : list string) :
  events_loop cards acc =
  (acc ++ omap (fun card =>
                  Soup.get_text "" true <$> Soup.find "h3" (Soup.has_class "text-normal") card)
            cards)%list.
Proof.
  revert acc. induction cards as [|card cards IH]; intros acc; simpl.
  - by rewrite app_nil_r.
  - destruct (Soup.find "h3" _ card); simpl; rewrite IH; [|done].
    by rewrite <- app_assoc.
Qed.

(** C5. [Events_Count] is the number of the names collected in [events],
    which are the texts of the headings of the cards of the events in the
    order of the page, and [Events_List] is these names joined; with no card
    the count is 0 and the list is the empty string. *)
Theorem events_count_is_length (soup : Soup.node) :
  let detail_data := parse_detail_page_soup re lower soup in
  detail_data !! "Events_Count" = Some (Py.VInt (Z.of_nat (length (events soup))))
  /\ detail_data !! "Events_List" = Some (Py.VStr (Py.join "; " (events soup)))
  /\ events soup =
       omap (fun card =>
               Soup.get_text "" true <$> Soup.find "h3" (Soup.has_class "text-normal") card)
         (event_cards soup)
  /\ (event_cards soup = [] ->
        detail_data !! "Events_Count" = Some (Py.VInt 0)
        /\ detail_data !! "Events_List" = Some (Py.VStr "")).
Proof.
  assert (parse_detail_page_soup re lower soup !! "Events_Count" =
            Some (Py.VInt (Z.of_nat (length (events soup))))) as Hcount.
  { unfold parse_detail_page_soup. apply ensure_fields_keeps. apply lookup_insert_eq. }
  assert (parse_detail_page_soup re lower soup !! "Events_List" =
            Some (Py.VStr (Py.join "; " (events soup)))) as Hlist.
  { unfold parse_detail_page_soup. apply ensure_fields_keeps.
    rewrite lookup_insert_ne by done. apply lookup_insert_eq. }
  cbv zeta. split; [done|]. split; [done|]. split.
  - unfold events. apply events_loop_acc.
  - intros Hnone. rewrite Hcount, Hlist. unfold events. by rewrite Hnone.
Qed.








End DetailFacts.

Lemma events_count_is_length_witness :
  event_cards Example.footer_only = []
  /\ parse_detail_page_soup Example.no_match Example.lower Example.footer_only
       !! "Events_Count" = Some (Py.VInt 0)
  /\ parse_detail_page_soup Example.no_match Example.lower Example.footer_only
       !! "Events_List" = Some (Py.VStr "").
Proof.
  split; [by vm_compute|].
  pose proof (events_count_is_length Example.no_match Example.lower Example.footer_only)
    as (_ & _ & _ & Hnone).
  apply Hnone. by vm_compute.
Defined.



(** ** The pagination *)

Section PaginationFacts.

Context `{Platform}.

Lemma scrape_page_unfold (params : gmap string string) (page : Z) (st : state) :
  scrape_page params page st =
  let request := Get BASE_URL (<["frmposition" := pretty page]> params) in
  match http_get (world st) BASE_URL (<["frmposition" := pretty page]> params) with
  | (response, w) =>
      match response ≫= (fun text => parse_competitions text page) with
      | Some competitions =>
          (Return (competitions, true), State w (heap st) (log st ++ [request]))
      | None =>
          (Return ([], false),
           State w (heap st) ((log st ++ [request]) ++ [Error page]))
      end
  end.
Proof.
  unfold scrape_page, mbind at 1, M_bind at 1, get. cbv zeta.
  destruct (http_get _ _ _) as [[text|] w]; [|done].
  cbn [mbind option_bind]. by destruct (parse_competitions text page).
Qed.

Lemma scrape_page_returns (params : gmap string string) (page : Z) (st : state) :
  exists competitions success st',
    scrape_page params page st = (Return (competitions, success), st')
    /\ (success = false -> competitions = [])
    /\ exists trace,
         log st' = (log st ++ Get BASE_URL (<["frmposition" := pretty page]> params) :: trace)%list.
Proof.
  rewrite scrape_page_unfold. cbv zeta.
  destruct (http_get _ _ _) as [response w].
  destruct (response ≫= _) as [competitions|];
    do 3 eexists; (split; [reflexivity|]); simpl.
  - split; [done|]. by exists [].
  - split; [done|]. exists [Error page]. by rewrite <- app_assoc.
Qed.

Lemma pages_loop_unfold (fuel : nat) (params : gmap string string) (page : Z)
    (acc : list record) (st : state) :
  pages_loop (S fuel) params page acc st =
  match scrape_page params page st with
  | (Return (competitions, success), st1) =>
      if negb success || is_empty competitions then (Return acc, st1)
      else if (length competitions <? COMPETITIONS_PER_PAGE)%nat
           then (Return (acc ++ competitions)%list, st1)
           else pages_loop fuel params (page + 1) (acc ++ competitions)%list (slept st1)
  | (Raise e, st1) => (Raise e, st1)
  | (OutOfFuel, st1) => (OutOfFuel, st1)
  end.
Proof.
  simpl. unfold mbind at 1, M_bind at 1.
  destruct (scrape_page params page st) as [[[competitions success]| |] st1]; [|done..].
  destruct (negb success || is_empty competitions); [done|].
  destruct (length competitions <? COMPETITIONS_PER_PAGE)%nat; done.
Qed.

Lemma is_empty_false {A} (l : list A) : l <> [] -> is_empty l = false.
Proof. by destruct l. Qed.

Lemma pages_loop_sound (fuel : nat) (params : gmap string string) (page : Z)
    (acc : list record) (st : state) (result : list record) (st' : state) :
  pages_loop fuel params page acc st = (Return result, st') ->
  pagination params page acc st result st'.
Proof.
  revert page acc st. induction fuel as [|fuel IH]; intros page acc st; [done|].
  rewrite pages_loop_unfold.
  destruct (scrape_page params page st) as [[[competitions success]| |] st1] eqn:Hpage;
    [|done..].
  destruct success; [|intros [= <- <-]; by eapply pagination_failure].
  destruct competitions as [|c competitions];
    [intros [= <- <-]; by apply pagination_empty|].
  change (negb true || is_empty (c :: competitions)) with false. cbv iota.
  destruct (Nat.ltb_spec (length (c :: competitions)) COMPETITIONS_PER_PAGE).
  - intros [= <- <-]. by eapply pagination_partial.
  - intros Hrest. eapply pagination_full; [done|done|]. by apply IH.
Qed.

Lemma pages_loop_complete (params : gmap string string) (page : Z)
    (acc : list record) (st : state) (result : list record) (st' : state) :
  pagination params page acc st result st' ->
  exists fuel, pages_loop fuel params page acc st = (Return result, st').
Proof.
  induction 1 as [page acc st competitions st' Hpage
                 |page acc st st' Hpage
                 |page acc st competitions st' Hpage Hne Hlt
                 |page acc st competitions st1 result st' Hpage Hge _ IH].
  - exists 1%nat. by rewrite pages_loop_unfold, Hpage.
  - exists 1%nat. by rewrite pages_loop_unfold, Hpage.
  - exists 1%nat. rewrite pages_loop_unfold, Hpage. simpl.
    rewrite (is_empty_false _ Hne).
    apply Nat.ltb_lt in Hlt. by rewrite Hlt.
  - destruct IH as [fuel IH].
    exists (S fuel). rewrite pages_loop_unfold, Hpage. simpl.
    assert (is_empty competitions = false) as ->.
    { destruct competitions; [|done]. unfold COMPETITIONS_PER_PAGE in Hge. simpl in Hge. lia. }
    apply Nat.ltb_ge in Hge. by rewrite Hge.
Qed.

Lemma pagination_extends (params : gmap string string) (page : Z)
    (acc : list record) (st : state) (result : list record) (st' : state) :
  pagination params page acc st result st' ->
  exists more, result = (acc ++ more)%list.
Proof.
  induction 1 as [| | |page acc st competitions st1 result st' _ _ _ IH].
  - exists []. by rewrite app_nil_r.
  - exists []. by rewrite app_nil_r.
  - by eexists.
  - destruct IH as [more ->]. eexists. by rewrite <- app_assoc.
Qed.

(** C1. The loop over the pages returns exactly as the pagination of the
    specification does: it stops on a failed fetch, on a page without
    record, and after adding a page of fewer than 250 records; a page of 250
    records is added, and after the pause the loop asks for the page whose
    number is one more.  What it returns starts with what was gathered
    before, also when a later page fails or is empty.  Every request carries
    the number of the page in [frmposition]. *)
Theorem pagination_stop_conditions (params : gmap string string) :
  (forall page acc st result st',
     (exists fuel, pages_loop fuel params page acc st = (Return result, st'))
     <-> pagination params page acc st result st')
  /\ (forall page acc st result st',
        pagination params page acc st result st' ->
        exists more, result = (acc ++ more)%list)
  /\ (forall fuel page acc st competitions st1,
        scrape_page params page st = (Return (competitions, true), st1) ->
        length competitions = COMPETITIONS_PER_PAGE ->
        pages_loop (S fuel) params page acc st =
        pages_loop fuel params (page + 1) (acc ++ competitions)%list (slept st1))
  /\ (forall page st,
        exists competitions success st' trace,
          scrape_page params page st = (Return (competitions, success), st')
          /\ log st' =
             (log st ++ Get BASE_URL (<["frmposition" := pretty page]> params) :: trace)%list).
Proof.
  split; [|split; [|split]].
  - intros page acc st result st'. split.
    + intros [fuel Hrun]. by eapply pages_loop_sound.
    + apply pages_loop_complete.
  - intros page acc st result st'. apply pagination_extends.
  - intros fuel page acc st competitions st1 Hpage Hlen.
    rewrite pages_loop_unfold, Hpage. simpl.
    assert (is_empty competitions = false) as -> by (by destruct competitions).
    by rewrite Hlen.
  - intros page st.
    destruct (scrape_page_returns params page st)
      as (competitions & success & st' & Hpage & _ & trace & Hlog).
    by exists competitions, success, st', trace.
Qed.

End PaginationFacts.

(** A first page of two records: the loop adds them and stops there. *)
Lemma pagination_stop_conditions_witness :
  exists result,
    length result = 2%nat
    /\ @pagination Example.scripted ∅ 1 [] (Example.start [Some "2"; None] []) result
         (snd (@pages_loop Example.scripted 1 ∅ 1 [] (Example.start [Some "2"; None] []))).
Proof.
  assert (match fst (@pages_loop Example.scripted 1 ∅ 1 []
                       (Example.start [Some "2"; None] [])) with
          | Return r => length r
          | _ => 0%nat
          end = 2%nat) as Hlen by (by vm_compute).
  destruct (@pages_loop Example.scripted 1 ∅ 1 [] (Example.start [Some "2"; None] []))
    as [[result| |] st'] eqn:Hrun; try discriminate Hlen.
  exists result. split; [exact Hlen|].
  destruct (@pagination_stop_conditions Example.scripted ∅) as [Hiff _].
  apply Hiff. by exists 1%nat.
Defined.

(** ** The batch mode *)

Section BatchFacts.

Context `{Platform}.

Lemma batch_loop_unfold (fuel pfuel : nat) (params : gmap string string)
    (batch_days cur end_dt : Z) (acc : list record) (st : state) :
  cur <= end_dt ->
  batch_loop (S fuel) pfuel params batch_days cur end_dt acc st =
  match Date.timedelta batch_days with
  | None => (Raise OverflowError, st)
  | Some delta =>
      match Date.add cur delta with
      | None => (Raise OverflowError, st)
      | Some upper =>
          let current_end := Z.min upper end_dt in
          let batch_params :=
            <["frmdate2" := strftime current_end]> (<["frmdate1" := strftime cur]> params) in
          match pages_loop pfuel batch_params 1 acc st with
          | (Return acc', st') =>
              match Date.add current_end 1 with
              | None => (Raise OverflowError, st')
              | Some next => batch_loop fuel pfuel params batch_days next end_dt acc' st'
              end
          | (Raise e, st') => (Raise e, st')
          | (OutOfFuel, st') => (OutOfFuel, st')
          end
      end
  end.
Proof.
  intros Hle. apply Z.leb_le in Hle. simpl. rewrite Hle.
  destruct (Date.timedelta batch_days) as [delta|]; [|done].
  unfold mbind at 1, M_bind at 1. simpl.
  destruct (Date.add cur delta) as [upper|]; [|done].
  unfold mbind at 1, M_bind at 1. simpl.
  unfold mbind at 1, M_bind at 1.
  destruct (pages_loop pfuel _ 1 acc st) as [[acc'| |] st']; [|done..].
  unfold mbind at 1, M_bind at 1. simpl.
  destruct (Date.add (Z.min upper end_dt) 1) as [next|]; [|done].
  by unfold mbind at 1, M_bind at 1.
Qed.

Lemma batch_loop_done (fuel pfuel : nat) (params : gmap string string)
    (batch_days cur end_dt : Z) (acc : list record) (st : state) :
  end_dt < cur ->
  batch_loop (S fuel) pfuel params batch_days cur end_dt acc st = (Return acc, st).
Proof. intros Hlt. apply Z.leb_gt in Hlt. simpl. by rewrite Hlt. Qed.

Lemma date_add_in_range (d delta : Z) :
  Date.MINORD <= d + delta <= Date.MAXORD -> Date.add d delta = Some (d + delta).
Proof.
  intros [Hlo Hhi]. unfold Date.add.
  apply Z.leb_le in Hlo, Hhi. by rewrite Hlo, Hhi.
Qed.

Lemma date_add_some (d delta r : Z) : Date.add d delta = Some r -> r = d + delta.
Proof. unfold Date.add. case_match; by intros [=]. Qed.

Lemma timedelta_some (days delta : Z) : Date.timedelta days = Some delta -> delta = days.
Proof. unfold Date.timedelta. case_match; by intros [=]. Qed.

Lemma timedelta_small (days : Z) :
  Z.abs days <= 999999999 -> Date.timedelta days = Some days.
Proof. intros Hle. unfold Date.timedelta. apply Z.leb_le in Hle. by rewrite Hle. Qed.

(** As long as the dates that the loop computes are dates of [datetime],
    it runs the pagination on the batches of the splitter, one after the
    other. *)
Lemma batch_loop_refines (pfuel : nat) (params : gmap string string)
    (batch_days end_dt : Z) :
  1 <= batch_days ->
  forall (n fuel : nat) (cur : Z) (acc : list record) (st : state),
    Date.MINORD <= cur ->
    Forall (Splitter.computable batch_days) (Splitter.batches_from n cur end_dt batch_days) ->
    (Z.to_nat (end_dt - cur + 1) <= n)%nat ->
    (n < fuel)%nat ->
    batch_loop fuel pfuel params batch_days cur end_dt acc st =
    paginate_batches pfuel params (Splitter.batches_from n cur end_dt batch_days) acc st.
Proof.
  intros Hdays.
  induction n as [|n IH]; intros fuel cur acc st Hmin Hfit Hn Hfuel;
    (destruct fuel as [|fuel]; [lia|]); unfold Date.MINORD in Hmin.
  - rewrite batch_loop_done by lia. done.
  - revert Hfit. cbn [Splitter.batches_from].
    destruct (Z.leb_spec cur end_dt) as [Hle|Hgt];
      [|by rewrite batch_loop_done by lia].
    cbv zeta. intros Hfit. inversion Hfit as [|batch rest [Hupper Hnext] Hrest]; subst.
    unfold Date.MAXORD in Hupper, Hnext. cbn [fst snd] in Hupper, Hnext.
    rewrite batch_loop_unfold by done.
    rewrite timedelta_small by lia.
    rewrite date_add_in_range by (unfold Date.MINORD, Date.MAXORD; lia).
    cbv zeta. cbn [paginate_batches]. unfold mbind at 1, M_bind at 1.
    destruct (pages_loop pfuel _ 1 acc st) as [[acc'| |] st']; [|done..].
    rewrite date_add_in_range by (unfold Date.MINORD, Date.MAXORD; lia).
    apply IH; [unfold Date.MINORD; lia|done|lia|lia].
Qed.

Lemma date_add_bounds (d delta r : Z) :
  Date.add d delta = Some r -> Date.MINORD <= r <= Date.MAXORD.
Proof.
  unfold Date.add.
  destruct (Z.leb_spec Date.MINORD (d + delta)), (Z.leb_spec (d + delta) Date.MAXORD);
    simpl; intros [= <-]; lia.
Qed.

(** When one of these dates is past the last date of [datetime], the loop
    does not return. *)
Lemma batch_loop_overflows (pfuel : nat) (params : gmap string string)
    (batch_days end_dt : Z) :
  forall (n fuel : nat) (cur : Z) (acc : list record) (st : state)
         (result : list record) (st' : state),
    ~ Forall (Splitter.computable batch_days) (Splitter.batches_from n cur end_dt batch_days) ->
    batch_loop fuel pfuel params batch_days cur end_dt acc st <> (Return result, st').
Proof.
  induction n as [|n IH]; intros fuel cur acc st result st' Hfit.
  - destruct Hfit. constructor.
  - revert Hfit. cbn [Splitter.batches_from].
    destruct (Z.leb_spec cur end_dt) as [Hle|Hgt]; [|intros Hfit; destruct Hfit; constructor].
    cbv zeta. intros Hfit.
    destruct fuel as [|fuel]; [done|].
    rewrite batch_loop_unfold by done.
    destruct (Date.timedelta batch_days) as [delta|] eqn:Hdelta; [|done].
    apply timedelta_some in Hdelta as ->.
    destruct (Date.add cur batch_days) as [upper|] eqn:Hupper; [|done].
    pose proof (date_add_bounds _ _ _ Hupper) as [_ Hfits].
    apply date_add_some in Hupper as ->. cbv zeta.
    destruct (pages_loop pfuel _ 1 acc st) as [[acc'| |] st1]; [|done..].
    destruct (Date.add _ 1) as [next|] eqn:Hnext; [|done].
    pose proof (date_add_bounds _ _ _ Hnext) as [_ Hnfits].
    apply date_add_some in Hnext as ->.
    apply IH. intros Hrest. apply Hfit. constructor; [|done]. by split.
Qed.

Lemma batches_from_days (end_dt batch_days : Z) (n : nat) (cur : Z) :
  0 <= batch_days ->
  (Z.to_nat (end_dt - cur + 1) <= n)%nat ->
  flat_map Splitter.days (Splitter.batches_from n cur end_dt batch_days) =
  seqZ cur (end_dt - cur + 1).
Proof.
  intros Hdays. revert cur. induction n as [|n IH]; intros cur Hn; simpl.
  - by rewrite seqZ_nil by lia.
  - destruct (Z.leb_spec cur end_dt) as [Hle|Hgt]; [|by rewrite seqZ_nil by lia].
    simpl. rewrite IH by lia. unfold Splitter.days. simpl.
    set (e := Z.min (cur + batch_days) end_dt).
    replace (end_dt - cur + 1) with ((e - cur + 1) + (end_dt - (e + 1) + 1)) by lia.
    rewrite (seqZ_app cur (e - cur + 1) (end_dt - (e + 1) + 1)) by lia.
    do 2 f_equal; lia.
Qed.

Lemma batches_from_head (end_dt batch_days : Z) (n : nat) (cur s e : Z) :
  Splitter.batches_from n cur end_dt batch_days !! 0%nat = Some (s, e) ->
  s = cur /\ e = Z.min (cur + batch_days) end_dt /\ cur <= end_dt.
Proof.
  destruct n as [|n]; simpl; [done|].
  destruct (Z.leb_spec cur end_dt); [|done]. by intros [= <- <-].
Qed.

Lemma batches_from_none (end_dt batch_days : Z) (n : nat) (cur : Z) :
  (Z.to_nat (end_dt - cur + 1) <= n)%nat ->
  Splitter.batches_from n cur end_dt batch_days !! 0%nat = None ->
  end_dt < cur.
Proof.
  destruct n as [|n]; simpl; [lia|].
  destruct (Z.leb_spec cur end_dt); [done|lia].
Qed.

Lemma batches_from_shape (end_dt batch_days : Z) (n : nat) (cur : Z) (i : nat) (s e : Z) :
  0 <= batch_days ->
  (Z.to_nat (end_dt - cur + 1) <= n)%nat ->
  Splitter.batches_from n cur end_dt batch_days !! i = Some (s, e) ->
  s <= e /\ e = Z.min (s + batch_days) end_dt
  /\ (Splitter.batches_from n cur end_dt batch_days !! S i = None -> e = end_dt)
  /\ (forall s' e',
        Splitter.batches_from n cur end_dt batch_days !! S i = Some (s', e') ->
        e = s + batch_days /\ s' = e + 1).
Proof.
  intros Hdays. revert cur i. induction n as [|n IH]; intros cur i Hn; [done|].
  simpl. destruct (Z.leb_spec cur end_dt) as [Hle|Hgt]; [|done].
  destruct i as [|i]; simpl.
  - intros [= <- <-]. split; [lia|]. split; [done|]. split.
    + intros Hnone. apply batches_from_none in Hnone; lia.
    + intros s' e' Hnext. apply batches_from_head in Hnext. lia.
  - intros Hi. apply IH in Hi; [done|lia].
Qed.

(** C2, as amended.  Take dates of [datetime] with [start <= end], and
    [batch_days >= 1].  The consecutive batches
    [[cur, min(cur + batch_days, end)]] are these: the first starts at
    [start], each of the others on the day after the end of the one before,
    a batch that is not the last spans [batch_days] days and the last ends
    at [end], so that the days of the batches, put end to end, are the days
    from [start] to [end], each once.  When for every one of them its start
    plus [batch_days] and the day after its end are not past 9999-12-31,
    the batch mode runs the pagination on these batches, in this order;
    when one of these dates is past 9999-12-31 the batch mode returns
    nothing.  From 2025-12-21 to 2026-01-31 by 30 days the batches are
    2025-12-21 to 2026-01-20 and 2026-01-21 to 2026-01-31. *)
Theorem batches_partition_range (pfuel : nat) (params : gmap string string)
    (batch_days start_dt end_dt : Z) :
  start_dt <= end_dt ->
  1 <= batch_days ->
  Date.MINORD <= start_dt ->
  let batches := Splitter.batches start_dt end_dt batch_days in
  (forall (fuel : nat) (date1 date2 : string) (st : state),
     params !! "frmdate1" = Some date1 -> strptime date1 = Some start_dt ->
     params !! "frmdate2" = Some date2 -> strptime date2 = Some end_dt ->
     (Forall (Splitter.computable batch_days) batches ->
      (Z.to_nat (end_dt - start_dt + 1) < fuel)%nat ->
      scrape_competitions fuel pfuel params true batch_days st =
      paginate_batches pfuel params batches [] st)
     /\ (~ Forall (Splitter.computable batch_days) batches ->
         forall (result : list record) (st' : state),
           scrape_competitions fuel pfuel params true batch_days st <> (Return result, st')))
  /\ head batches = Some (start_dt, Z.min (start_dt + batch_days) end_dt)
  /\ (forall (i : nat) (s e : Z),
        batches !! i = Some (s, e) ->
        s <= e /\ e = Z.min (s + batch_days) end_dt
        /\ (batches !! S i = None -> e = end_dt)
        /\ (forall s' e', batches !! S i = Some (s', e') ->
              e = s + batch_days /\ s' = e + 1))
  /\ flat_map Splitter.days batches = Splitter.days (start_dt, end_dt)
  /\ (s ← Date.fromisoformat "2025-12-21";
      e ← Date.fromisoformat "2026-01-31";
      Some (map (fun b : Z * Z => (Date.isoformat (fst b), Date.isoformat (snd b)))
              (Splitter.batches s e 30)))
     = Some [("2025-12-21", "2026-01-20"); ("2026-01-21", "2026-01-31")].
Proof.
  intros Hle Hdays Hmin batches. subst batches. unfold Splitter.batches.
  split; [|split; [|split; [|split]]].
  - intros fuel date1 date2 st Hd1 Hs1 Hd2 Hs2.
    assert (scrape_competitions fuel pfuel params true batch_days st =
            batch_loop fuel pfuel params batch_days start_dt end_dt [] st) as ->.
    { unfold scrape_competitions, date_param.
      rewrite Hd1, Hd2. simpl. unfold mbind, M_bind. simpl. by rewrite Hs1, Hs2. }
    split.
    + intros Hfit Hfuel. by apply batch_loop_refines.
    + intros Hfit result st'. by eapply batch_loop_overflows.
  - destruct (Z.to_nat (end_dt - start_dt + 1)) as [|n] eqn:Hn; [lia|].
    simpl. apply Z.leb_le in Hle. by rewrite Hle.
  - intros i s e Hi. eapply batches_from_shape; [lia|lia|done].
  - rewrite batches_from_days by lia. done.
  - by vm_compute.
Qed.

End BatchFacts.

(** The thirty days from 9999-12-01 to 9999-12-30 as one batch of 30 days:
    the two dates that the loop computes are both 9999-12-31, and the batch
    mode runs the pagination on that batch. *)
Lemma batches_partition_range_witness :
  @scrape_competitions Example.scripted 31 1
    (Example.query "9999-12-01" "9999-12-30") true 30 (Example.start [] [])
  = @paginate_batches Example.scripted 1 (Example.query "9999-12-01" "9999-12-30")
      (Splitter.batches 3652029 3652058 30) [] (Example.start [] []).
Proof.
  pose proof (@batches_partition_range Example.scripted 1
                (Example.query "9999-12-01" "9999-12-30") 30 3652029 3652058)
    as Hsplit.
  destruct Hsplit as (Hrun & _); [lia|lia|by vm_compute|].
  destruct (Hrun 31%nat "9999-12-01" "9999-12-30" (Example.start [] [])) as [Hfits _];
    [by vm_compute|by vm_compute|by vm_compute|by vm_compute|].
  apply Hfits; [|by vm_compute].
  assert (Splitter.batches 3652029 3652058 30 = [(3652029, 3652058)]) as -> by (by vm_compute).
  constructor; [|constructor]. split; by vm_compute.
Defined.

(** C2 as it was claimed fails at the end of the range of [datetime]: for
    the one day 9999-12-31 and [batch_days = 1] the claimed batch is that
    day, on which the pagination would send a request, and the batch mode
    raises [OverflowError] on [current_start + timedelta(days=1)] before any
    request is sent. *)
Lemma batch_overflow_counterexample :
  Date.fromisoformat "9999-12-31" = Some Date.MAXORD
  /\ Splitter.batches Date.MAXORD Date.MAXORD 1 = [(Date.MAXORD, Date.MAXORD)]
  /\ (let run :=
        @scrape_competitions Example.scripted 2 1
          (Example.query "9999-12-31" "9999-12-31") true 1 (Example.start [] []) in
      match fst run with Raise e => Some e | _ => None end = Some OverflowError
      /\ @log Example.scripted (snd run) = [])
  /\ (let claimed :=
        @paginate_batches Example.scripted 1
          (Example.query "9999-12-31" "9999-12-31")
          (Splitter.batches Date.MAXORD Date.MAXORD 1) [] (Example.start [] []) in
      match fst claimed with Return r => Some (length r) | _ => None end = Some 0%nat
      /\ length (@log Example.scripted (snd claimed)) = 2%nat).
Proof.
  split; [by vm_compute|]. split; [by vm_compute|].
  split; (split; by vm_compute).
Qed.

(** ** Termination of the batch mode *)

Section TerminationFacts.

Context `{Platform}.

Lemma batch_loop_fuel (pfuel : nat) (params : gmap string string)
    (batch_days end_dt : Z) :
  1 <= batch_days ->
  forall (n fuel : nat) (cur : Z) (acc : list record) (st : state),
    (forall query acc' st',
       batch_call pfuel params batch_days end_dt cur acc st query acc' st' ->
       fst (pages_loop pfuel query 1 acc' st') <> OutOfFuel) ->
    (Z.to_nat (end_dt - cur + 1) <= n)%nat ->
    (n < fuel)%nat ->
    fst (batch_loop fuel pfuel params batch_days cur end_dt acc st) <> OutOfFuel.
Proof.
  intros Hdays.
  induction n as [|n IH]; intros fuel cur acc st Hinner Hn Hfuel;
    (destruct fuel as [|fuel]; [lia|]).
  - by rewrite batch_loop_done by lia.
  - destruct (Z.leb_spec cur end_dt) as [Hle|Hgt];
      [|by rewrite batch_loop_done by lia].
    rewrite batch_loop_unfold by done.
    destruct (Date.timedelta batch_days) as [delta|] eqn:Hdelta; [|done].
    destruct (Date.add cur delta) as [upper|] eqn:Hupper; [|done].
    cbv zeta.
    pose proof (Hinner _ _ _ (call_now pfuel params batch_days end_dt
                                cur acc st delta upper Hle Hdelta Hupper)) as Hreturns.
    destruct (pages_loop pfuel _ 1 acc st) as [[acc'| |] st'] eqn:Hpages; [|done..].
    destruct (Date.add _ 1) as [next|] eqn:Hnext; [|done].
    apply IH.
    + intros query acc'' st'' Hcall. apply Hinner.
      by eapply call_later.
    + apply timedelta_some in Hdelta as ->.
      apply date_add_some in Hupper as ->. apply date_add_some in Hnext as ->. lia.
    + lia.
Qed.

(** C10. When every pagination that the run comes to call returns, the
    loop over the batches returns or raises after at most as many rounds as
    there are days from [start] to [end]: one round more of fuel than that
    is never used up.  In a round that goes through, the next batch starts
    on the day after the end of the batch, which is later than its start. *)
Theorem batch_loop_terminates (fuel pfuel : nat) (params : gmap string string)
    (batch_days start_dt end_dt : Z) (acc : list record) (st : state) :
  start_dt <= end_dt ->
  1 <= batch_days ->
  (forall query acc' st',
     batch_call pfuel params batch_days end_dt start_dt acc st query acc' st' ->
     fst (pages_loop pfuel query 1 acc' st') <> OutOfFuel) ->
  (Z.to_nat (end_dt - start_dt + 1) < fuel)%nat ->
  fst (batch_loop fuel pfuel params batch_days start_dt end_dt acc st) <> OutOfFuel
  /\ forall (rounds : nat) (cur upper next : Z) (acc1 acc2 : list record) (st1 st2 : state),
       Date.MINORD <= cur <= end_dt ->
       Date.add cur batch_days = Some upper ->
       pages_loop pfuel
         (<["frmdate2" := strftime (Z.min upper end_dt)]> (<["frmdate1" := strftime cur]> params))
         1 acc1 st1 = (Return acc2, st2) ->
       Date.add (Z.min upper end_dt) 1 = Some next ->
       batch_loop (S rounds) pfuel params batch_days cur end_dt acc1 st1 =
       batch_loop rounds pfuel params batch_days next end_dt acc2 st2
       /\ next = Z.min upper end_dt + 1 /\ cur < next.
Proof.
  intros Hle Hdays Hinner Hfuel. split.
  - by eapply batch_loop_fuel.
  - intros rounds cur upper next acc1 acc2 st1 st2 [Hmin Hcur] Hupper Hpages Hnext.
    rewrite batch_loop_unfold by done.
    destruct (Date.timedelta batch_days) as [delta|] eqn:Hdelta.
    + apply timedelta_some in Hdelta as ->.
      rewrite Hupper. cbv zeta. rewrite Hpages, Hnext.
      apply date_add_some in Hupper, Hnext. split; [done|]. lia.
    + unfold Date.add in Hupper. unfold Date.timedelta in Hdelta.
      unfold Date.MINORD, Date.MAXORD in *.
      repeat case_match; try done. lia.
Qed.

End TerminationFacts.

(** On the scripted site a request takes the next answer of the script,
    and fails when there is none left. *)
Lemma scripted_scrape_page (params : gmap string string) (page : Z)
    (st : @state Example.scripted) :
  exists competitions success st',
    @scrape_page Example.scripted params page st = (Return (competitions, success), st')
    /\ @world Example.scripted st' = tail (@world Example.scripted st)
    /\ (@world Example.scripted st = [] -> success = false).
Proof.
  rewrite scrape_page_unfold. cbv zeta.
  destruct st as [[|response w] h l]; cbn [world heap log http_get Example.scripted tail].
  - do 3 eexists. split; [reflexivity|]. split; done.
  - destruct (response ≫= _) as [competitions|];
      do 3 eexists; (split; [reflexivity|]); split; done.
Qed.

(** A pagination on the scripted site makes at most one request more than
    there are answers left in the script. *)
Lemma scripted_pagination_returns (pfuel : nat) (params : gmap string string)
    (page : Z) (acc : list record) (st : @state Example.scripted) :
  (length (@world Example.scripted st) < pfuel)%nat ->
  fst (@pages_loop Example.scripted pfuel params page acc st) <> OutOfFuel.
Proof.
  revert page acc st. induction pfuel as [|pfuel IH]; intros page acc st Hlen; [lia|].
  rewrite pages_loop_unfold.
  destruct (scripted_scrape_page params page st)
    as (competitions & success & st1 & -> & Hworld & Hfail).
  destruct success; cbn [negb orb]; [|done].
  destruct (is_empty competitions); [done|].
  destruct (length competitions <? COMPETITIONS_PER_PAGE)%nat; [done|].
  apply IH. cbn [slept world]. rewrite Hworld.
  destruct (@world Example.scripted st) as [|response w]; [by specialize (Hfail eq_refl)|].
  simpl in *. lia.
Qed.

Lemma scripted_pagination_world (pfuel : nat) (params : gmap string string)
    (page : Z) (acc : list record) (st : @state Example.scripted) :
  (length (@world Example.scripted (snd (@pages_loop Example.scripted pfuel params page acc st)))
   <= length (@world Example.scripted st))%nat.
Proof.
  revert page acc st. induction pfuel as [|pfuel IH]; intros page acc st; [done|].
  rewrite pages_loop_unfold.
  destruct (scripted_scrape_page params page st)
    as (competitions & success & st1 & -> & Hworld & _).
  assert (length (@world Example.scripted st1) <= length (@world Example.scripted st))%nat
    as Hshrinks.
  { rewrite Hworld. destruct (@world Example.scripted st); simpl; lia. }
  destruct (negb success || is_empty competitions); [done|].
  destruct (length competitions <? COMPETITIONS_PER_PAGE)%nat; [done|].
  etrans; [apply IH|]. done.
Qed.

Lemma scripted_batch_call_world (pfuel : nat) (params : gmap string string)
    (batch_days end_dt cur : Z) (acc : list record) (st : @state Example.scripted)
    (query : gmap string string) (acc' : list record) (st' : @state Example.scripted) :
  @batch_call Example.scripted pfuel params batch_days end_dt cur acc st query acc' st' ->
  (length (@world Example.scripted st') <= length (@world Example.scripted st))%nat.
Proof.
  induction 1 as [|cur acc st delta upper acc1 st1 next query acc' st' _ _ _ Hpages _ _ IH];
    [done|].
  etrans; [exact IH|].
  pose proof (scripted_pagination_world pfuel
                (<["frmdate2" := Date.isoformat (Z.min upper end_dt)]>
                   (<["frmdate1" := Date.isoformat cur]> params)) 1 acc st) as Hshrinks.
  change (@strftime Example.scripted) with Date.isoformat in Hpages.
  by rewrite Hpages in Hshrinks.
Qed.

(** The three days from 2025-12-21 to 2025-12-23 by batches of one day on
    a site that answers a page of two records and then fails: with fuel for
    three pages, which a pagination over three full pages would use up, the
    two paginations of this run return, and the loop over the batches ends
    within four rounds. *)
Lemma batch_loop_terminates_witness :
  fst (@batch_loop Example.scripted 4 3 (Example.query "2025-12-21" "2025-12-23")
         1 739606 739608 [] (Example.start [Some "2"; None] [])) <> OutOfFuel.
Proof.
  assert (forall query acc' st',
            @batch_call Example.scripted 3 (Example.query "2025-12-21" "2025-12-23")
              1 739608 739606 [] (Example.start [Some "2"; None] []) query acc' st' ->
            fst (@pages_loop Example.scripted 3 query 1 acc' st') <> OutOfFuel) as Hinner.
  { intros query acc' st' Hcall. apply scripted_pagination_returns.
    apply scripted_batch_call_world in Hcall.
    change (length (@world Example.scripted st') <= 2)%nat in Hcall. lia. }
  assert (739606 <= 739608) as Hle by lia.
  assert (1 <= 1) as Hdays by lia.
  assert (Z.to_nat (739608 - 739606 + 1) < 4)%nat as Hfuel by lia.
  exact (proj1 (@batch_loop_terminates Example.scripted 4 3
                  (Example.query "2025-12-21" "2025-12-23") 1 739606 739608 []
                  (Example.start [Some "2"; None] []) Hle Hdays Hinner Hfuel)).
Defined.

(** ** The keys of a parsed detail page *)

Section DetailKeys.

Variable re : string -> bool -> string -> option (string * string).
Variable lower : string -> string.

Ltac in_fields := simpl; repeat first [left; reflexivity | right]; fail.

Lemma insert_outside (d : record) (field key : string) (v : Py.value) :
  d !! key = None -> field <> key -> <[field := v]> d !! key = None.
Proof. intros Hd Hne. by rewrite lookup_insert_ne. Qed.

Lemma outside_ne (key field : string) :
  ~ In key enrichment_fields -> In field enrichment_fields -> field <> key.
Proof. intros Hout Hin ->. done. Qed.

Lemma mailto_loop_outside (links : list Soup.node) (d : record) (key : string) :
  ~ In key enrichment_fields -> d !! key = None -> mailto_loop links d !! key = None.
Proof.
  intros Hout Hd. induction links as [|link links IH]; [done|]. simpl.
  destruct (Py.nonempty _); [|done].
  apply insert_outside; [done|]. apply outside_ne; [done|in_fields].
Qed.

Lemma paragraph_outside (d : record) (p : Soup.node) (key : string) :
  ~ In key enrichment_fields -> d !! key = None -> paragraph re lower d p !! key = None.
Proof.
  intros Hout Hd. unfold paragraph.
  repeat case_match; try done;
    (apply insert_outside; [done|]; apply outside_ne; [done|in_fields]).
Qed.

Lemma organizer_outside (section : option Soup.node) (d : record) (key : string) :
  ~ In key enrichment_fields -> d !! key = None -> organizer re lower section d !! key = None.
Proof.
  intros Hout Hd. destruct section as [section|]; [|done]. simpl.
  assert (mailto_loop (Soup.find_all "a" is_mailto section) d !! key = None) as Hmail
    by (by apply mailto_loop_outside).
  revert Hmail. generalize (mailto_loop (Soup.find_all "a" is_mailto section) d).
  induction (Soup.find_all "p" Soup.any section) as [|p ps IH]; intros d' Hd'; [done|].
  simpl. apply IH. by apply paragraph_outside.
Qed.

Lemma email_fallback_outside (section : option Soup.node) (d : record) (key : string) :
  ~ In key enrichment_fields -> d !! key = None -> email_fallback re section d !! key = None.
Proof.
  intros Hout Hd. unfold email_fallback.
  repeat case_match; try done;
    (apply insert_outside; [done|]; apply outside_ne; [done|in_fields]).
Qed.

Lemma club_card_outside (soup : Soup.node) (d : record) (key : string) :
  ~ In key enrichment_fields -> d !! key = None -> club_card re soup d !! key = None.
Proof.
  intros Hout Hd. unfold club_card.
  repeat case_match; try done;
    repeat (apply insert_outside; [|apply outside_ne; [done|in_fields]]); done.
Qed.

Lemma ensure_field_outside (d : record) (field key : string) :
  ~ In key enrichment_fields -> In field enrichment_fields ->
  d !! key = None -> ensure_field d field !! key = None.
Proof.
  intros Hout Hin Hd. unfold ensure_field. destruct (has_key field d); [done|].
  apply insert_outside; [done|]. by apply outside_ne.
Qed.

Lemma fold_ensure_field_outside (fields : list string) (d : record) (key : string) :
  ~ In key enrichment_fields ->
  Forall (fun field => In field enrichment_fields) fields ->
  d !! key = None -> fold_left ensure_field fields d !! key = None.
Proof.
  intros Hout Hfields. revert d.
  induction Hfields as [|f fields Hf _ IH]; intros d Hd; [done|].
  simpl. apply IH. by apply ensure_field_outside.
Qed.

Lemma ensure_fields_outside (d : record) (key : string) :
  ~ In key enrichment_fields -> d !! key = None -> ensure_fields d !! key = None.
Proof.
  intros Hout Hd. unfold ensure_fields.
  match goal with
  | |- (if has_key _ ?d0 then _ else _) !! _ = _ =>
      assert (d0 !! key = None) as Hlast
  end.
  { apply fold_ensure_field_outside; [done| |done].
    repeat (constructor; [in_fields|]). constructor. }
  destruct (has_key "Events_Count" _); [done|].
  apply insert_outside; [done|]. apply outside_ne; [done|in_fields].
Qed.

(** The detail parser writes no key but the ten of the enrichment. *)
Lemma parse_detail_page_outside (soup : Soup.node) (key : string) :
  ~ In key enrichment_fields -> parse_detail_page_soup re lower soup !! key = None.
Proof.
  intros Hout. unfold parse_detail_page_soup.
  apply ensure_fields_outside; [done|].
  do 2 (apply insert_outside; [|apply outside_ne; [done|in_fields]]).
  apply club_card_outside; [done|].
  apply email_fallback_outside; [done|].
  apply organizer_outside; [done|]. apply lookup_empty.
Qed.

Lemma ensure_field_sets (d : record) (field : string) :
  is_Some (ensure_field d field !! field).
Proof.
  unfold ensure_field, has_key. destruct (d !! field) eqn:Hf.
  - by rewrite Hf.
  - by rewrite lookup_insert_eq.
Qed.

Lemma ensure_field_keeps_some (d : record) (field key : string) :
  is_Some (d !! key) -> is_Some (ensure_field d field !! key).
Proof. intros [v Hv]. exists v. by apply ensure_field_keeps. Qed.

Lemma fold_ensure_field_some (fields : list string) (d : record) (key : string) :
  In key fields \/ is_Some (d !! key) ->
  is_Some (fold_left ensure_field fields d !! key).
Proof.
  revert d. induction fields as [|f fields IH]; intros d Hk; simpl.
  - by destruct Hk.
  - apply IH. destruct Hk as [[->|Hin]|Hsome].
    + right. apply ensure_field_sets.
    + by left.
    + right. by apply ensure_field_keeps_some.
Qed.

(** It writes every one of them. *)
Lemma parse_detail_page_inside (soup : Soup.node) (key : string) :
  In key enrichment_fields -> is_Some (parse_detail_page_soup re lower soup !! key).
Proof.
  intros Hin. unfold parse_detail_page_soup, ensure_fields.
  match goal with
  | |- is_Some ((if has_key _ ?d0 then _ else _) !! _) =>
      assert (is_Some (d0 !! key)) as Hfold
  end.
  { apply fold_ensure_field_some.
    unfold enrichment_fields in Hin. simpl in Hin.
    destruct Hin as [<-|[<-|[<-|[<-|[<-|[<-|[<-|[<-|[<-|[<-|[]]]]]]]]]]];
      first [left; in_fields | right; by rewrite lookup_insert_eq]. }
  destruct (has_key "Events_Count" _); [done|].
  destruct Hfold as [v Hv].
  destruct (decide ("Events_Count" = key)) as [<-|Hne].
  - by rewrite lookup_insert_eq.
  - exists v. by rewrite lookup_insert_ne.
Qed.

Lemma parse_detail_page_nonempty (soup : Soup.node) :
  parse_detail_page_soup re lower soup <> ∅.
Proof.
  intros Hempty.
  destruct (parse_detail_page_inside soup "Events_Count") as [v Hv]; [in_fields|].
  by rewrite Hempty, lookup_empty in Hv.
Qed.

End DetailKeys.

(** ** The enrichment driver *)

Section EnrichmentFacts.

Context `{Platform}.


Lemma parsed_detail_page_keys (html : string) (detail_data : record) (key : string) :
  parse_detail_page html = Some detail_data ->
  is_Some (detail_data !! key) <-> In key enrichment_fields.
Proof.
  unfold parse_detail_page. destruct (BeautifulSoup html) as [soup|]; [|done].
  intros [= <-]. split.
  - intros [v Hv].
    destruct (List.in_dec String.string_dec key enrichment_fields) as [Hin|Hnin]; [done|].
    by rewrite (parse_detail_page_outside _ _ _ _ Hnin) in Hv.
  - apply parse_detail_page_inside.
Qed.

Lemma parsed_detail_page_nonempty (html : string) (detail_data : record) :
  parse_detail_page html = Some detail_data -> detail_data <> ∅.
Proof.
  unfold parse_detail_page. destruct (BeautifulSoup html) as [soup|]; [|done].
  intros [= <-]. apply parse_detail_page_nonempty.
Qed.

Lemma merge_frame (html : string) (detail_data r : record) (key : string) :
  parse_detail_page html = Some detail_data ->
  ~ In key enrichment_fields -> (detail_data ∪ r) !! key = r !! key.
Proof.
  intros Hparse Hout. apply lookup_union_r.
  destruct (detail_data !! key) as [v|] eqn:Hv; [|done].
  destruct Hout. apply (parsed_detail_page_keys html detail_data key Hparse). by exists v.
Qed.

Lemma detail_url_not_enriched : ~ In "Detail_URL" enrichment_fields.
Proof. simpl. intros Hin. repeat (destruct Hin as [Hin|Hin]; [discriminate Hin|]). done. Qed.

Lemma has_detail_url_frame (r r' : record) :
  r' !! "Detail_URL" = r !! "Detail_URL" -> has_detail_url r' = has_detail_url r.
Proof. unfold has_detail_url. by intros ->. Qed.

Lemma visit_trace_frame (r r' : record) (trace : list event) :
  r' !! "Detail_URL" = r !! "Detail_URL" -> visit_trace r' trace -> visit_trace r trace.
Proof. unfold visit_trace. by intros ->. Qed.

(** The body of the loop, on a record with a link, is a visit. *)
Lemma enrich_visit (comp : loc) (st : state) :
  has_detail_url (heap st comp) = true ->
  exists st1 : state, enrich comp st = (Return tt, st1) /\ visit comp st st1.
Proof.
  unfold has_detail_url.
  destruct (heap st comp !! "Detail_URL") as [url|] eqn:Hurl; [|done].
  cbn [from_option]. intros Htruthy.
  unfold enrich. unfold mbind at 1, M_bind at 1, read at 1. rewrite Hurl.
  cbn [default from_option id].
  unfold mbind at 1, M_bind at 1. unfold mbind at 1, M_bind at 1.
  unfold scrape_detail_page. unfold mbind at 1, M_bind at 1, get at 1.
  destruct (http_get (world st) (Py.str url) ∅) as [[text|] w] eqn:Hget.
  - destruct (parse_detail_page text) as [detail_data|] eqn:Hparse.
    + eexists. split; [|by eapply visit_merged].
      unfold mret at 1, M_ret at 1.
      rewrite bool_decide_true by (by eapply parsed_detail_page_nonempty).
      unfold update, sleep, emit. cbn [world heap log]. by rewrite <- app_assoc.
    + eexists. split; [|eapply visit_failed; [done|done|exact Hget|exact Hparse]].
      unfold mbind, M_bind, mret, M_ret, sleep, emit. cbn [world heap log].
      by rewrite <- !app_assoc.
  - eexists. split; [|by eapply visit_failed].
    unfold mbind, M_bind, mret, M_ret, sleep, emit. cbn [world heap log].
    by rewrite <- !app_assoc.
Qed.

Lemma visit_spec (comp : loc) (st st1 : state) :
  visit comp st st1 ->
  (forall l, l <> comp -> heap st1 l = heap st l)
  /\ (has_detail_url (heap st comp) = false -> st1 = st)
  /\ (heap st1 comp = heap st comp
      \/ exists html detail_data,
           parse_detail_page html = Some detail_data
           /\ heap st1 comp = detail_data ∪ heap st comp)
  /\ exists trace, log st1 = (log st ++ trace)%list /\ visit_trace (heap st comp) trace.
Proof.
  unfold has_detail_url, visit_trace.
  destruct 1 as [comp st Hurl|comp st url response w Hurl Htruthy Hget Hnone
                |comp st url text w detail_data Hurl Htruthy Hget Hparse].
  - split; [done|]. split; [done|]. split; [by left|].
    exists []. split; [by rewrite app_nil_r|].
    unfold has_detail_url in Hurl.
    destruct (heap st comp !! "Detail_URL") as [url|]; [|done].
    cbn [from_option] in Hurl. by rewrite Hurl.
  - rewrite Hurl. cbn [from_option heap log]. rewrite Htruthy.
    split; [done|]. split; [done|]. split; [by left|].
    eexists. split; [done|]. by right.
  - rewrite Hurl. cbn [from_option heap log]. rewrite Htruthy.
    split; [by intros l Hl; rewrite decide_False|]. split; [done|]. split.
    + right. exists text, detail_data. by rewrite decide_True.
    + eexists. split; [done|]. by left.
Qed.

Lemma visit_frame (comp : loc) (st st1 : state) :
  visit comp st st1 ->
  forall l key, ~ In key enrichment_fields -> heap st1 l !! key = heap st l !! key.
Proof.
  intros Hvisit l key Hout.
  destruct (visit_spec comp st st1 Hvisit) as (Hother & _ & Hcomp & _).
  destruct (decide (l = comp)) as [->|Hne]; [|by rewrite Hother].
  destruct Hcomp as [->|(html & detail_data & Hparse & ->)]; [done|].
  by eapply merge_frame.
Qed.

End EnrichmentFacts.

Section EnrichmentLoop.

Context `{Platform}.

(** The driver visits the records of the list, one after the other. *)
Lemma detail_loop_visits (competitions updated : list loc) (st : state) :
  exists st' : state,
    detail_loop competitions updated st = (Return (updated ++ competitions)%list, st')
    /\ visits competitions st st'.
Proof.
  revert updated st.
  induction competitions as [|comp rest IH]; intros updated st.
  - exists st. rewrite app_nil_r. split; [done|constructor].
  - cbn [detail_loop]. unfold mbind at 1, M_bind at 1, read at 1.
    destruct (has_detail_url (heap st comp)) eqn:Hurl; cbn [negb].
    + destruct (enrich_visit comp st Hurl) as (st1 & Hrun & Hvisit).
      destruct (IH (updated ++ [comp])%list st1) as (st' & Hloop & Hvisits).
      exists st'. split; [|by econstructor].
      unfold mbind, M_bind. rewrite Hrun, Hloop. by rewrite <- app_assoc.
    + destruct (IH (updated ++ [comp])%list st) as (st' & Hloop & Hvisits).
      exists st'. split; [|econstructor; [by apply visit_skipped|done]].
      rewrite Hloop. by rewrite <- app_assoc.
Qed.

Lemma scrape_detail_pages_visits (competitions : list loc) (st : state) :
  exists st' : state,
    scrape_detail_pages competitions st = (Return competitions, st')
    /\ visits competitions st st'.
Proof.
  unfold scrape_detail_pages. destruct competitions as [|comp rest].
  - exists st. split; [done|constructor].
  - cbn [is_empty]. apply (detail_loop_visits (comp :: rest) [] st).
Qed.

Lemma visits_spec (competitions : list loc) (st st' : state) :
  visits competitions st st' ->
  (forall l, ~ In l competitions -> heap st' l = heap st l)
  /\ (forall l, has_detail_url (heap st l) = false -> heap st' l = heap st l)
  /\ (forall l key, ~ In key enrichment_fields -> heap st' l !! key = heap st l !! key)
  /\ (List.NoDup competitions ->
      forall l, heap st' l = heap st l
                \/ exists html detail_data,
                     parse_detail_page html = Some detail_data
                     /\ heap st' l = detail_data ∪ heap st l)
  /\ exists traces : list (list event),
       log st' = (log st ++ concat traces)%list
       /\ Forall2 (fun comp trace => visit_trace (heap st comp) trace) competitions traces.
Proof.
  induction 1 as [st|comp rest st st1 st' Hvisit _ IH].
  - repeat split; auto. exists []. split; [by rewrite app_nil_r|constructor].
  - destruct IH as (Hout & Hskip & Hframe & Honce & traces & Hlog & Htraces).
    destruct (visit_spec comp st st1 Hvisit) as (Hother & Hsame & Hcomp & trace1 & Hlog1 & Htrace1).
    pose proof (visit_frame comp st st1 Hvisit) as Hframe1.
    assert (forall l, has_detail_url (heap st1 l) = has_detail_url (heap st l)) as Hurl1.
    { intros l. apply has_detail_url_frame, Hframe1, detail_url_not_enriched. }
    split; [|split; [|split; [|split]]].
    + intros l Hl. rewrite Hout, Hother; [done|..]; intros ?; apply Hl; simpl; auto.
    + intros l Hl. rewrite Hskip by (by rewrite Hurl1).
      destruct (decide (l = comp)) as [->|Hne]; [|by apply Hother].
      by rewrite (Hsame Hl).
    + intros l key Hkey. by rewrite Hframe, Hframe1.
    + intros [Hfresh Hrest]%NoDup_cons_iff l.
      destruct (decide (l = comp)) as [->|Hne].
      * by rewrite Hout.
      * rewrite <- (Hother l Hne). by apply Honce.
    + exists (trace1 :: traces). split.
      * rewrite Hlog, Hlog1. simpl. by rewrite <- app_assoc.
      * constructor; [done|].
        eapply Forall2_impl; [exact Htraces|].
        intros l trace. apply visit_trace_frame.
        apply Hframe1, detail_url_not_enriched.
Qed.

End EnrichmentLoop.

Section EnrichmentTheorems.

Context `{Platform}.

Lemma detail_loop_skip (comp : loc) (rest updated : list loc) (st : state) :
  has_detail_url (heap st comp) = false ->
  detail_loop (comp :: rest) updated st = detail_loop rest (updated ++ [comp]) st.
Proof.
  intros Hurl. cbn [detail_loop]. unfold mbind at 1, M_bind at 1, read at 1.
  by rewrite Hurl.
Qed.

Lemma detail_loop_failure (comp : loc) (rest updated : list loc) (st : state)
    (u : string) (w : World) :
  heap st comp !! "Detail_URL" = Some (Py.VStr u) ->
  Py.nonempty u = true ->
  http_get (world st) u ∅ = (None, w) ->
  detail_loop (comp :: rest) updated st =
  detail_loop rest (updated ++ [comp])
    (State w (heap st)
       (log st ++ [Get u ∅; Warning (Py.VStr u); Sleep DEFAULT_DELAY])).
Proof.
  intros Hurl Hne Hget. cbn [detail_loop].
  unfold mbind at 1, M_bind at 1, read at 1.
  unfold has_detail_url. rewrite Hurl. cbn [from_option Py.truthy]. rewrite Hne.
  cbn [negb]. unfold mbind at 1, M_bind at 1.
  assert (enrich comp st =
          (Return tt,
           State w (heap st)
             (log st ++ [Get u ∅; Warning (Py.VStr u); Sleep DEFAULT_DELAY]))) as ->; [|done].
  unfold enrich, mbind, M_bind, read. rewrite Hurl. simpl.
  unfold scrape_detail_page, mbind, M_bind, get. simpl. rewrite Hget. simpl.
  unfold sleep, emit. simpl. by rewrite <- !app_assoc.
Qed.

(** C4, as amended.  The trace of a run of the driver is made of the
    traces of its records, in the order of the list.  That of a record with
    a link is the call of the session for its page, the warning if the page
    did not come or was not parsed, and then the pause of [DEFAULT_DELAY],
    which comes before anything is done for the next record; that of a
    record without link is empty: it is passed on with no pause. *)
Theorem delay_after_each_fetch (competitions : list loc) (st : state) :
  exists (st' : state) (traces : list (list event)),
    scrape_detail_pages competitions st = (Return competitions, st')
    /\ log st' = (log st ++ concat traces)%list
    /\ Forall2
         (fun comp trace =>
            match heap st comp !! "Detail_URL" with
            | Some url =>
                if Py.truthy url then
                  trace = [Get (Py.str url) ∅; Sleep DEFAULT_DELAY]
                  \/ trace = [Get (Py.str url) ∅; Warning url; Sleep DEFAULT_DELAY]
                else trace = []
            | None => trace = []
            end)
         competitions traces.
Proof.
  destruct (scrape_detail_pages_visits competitions st) as (st' & Hrun & Hvisits).
  destruct (visits_spec competitions st st' Hvisits)
    as (_ & _ & _ & _ & traces & Hlog & Htraces).
  by exists st', traces.
Qed.

Lemma competition_defaults (cells : list Soup.node) (page : Z) (key : string) :
  In key enrichment_fields ->
  competition re_search cells page !! key =
  Some (if String.eqb key "Events_Count" then Py.VInt 0 else Py.VStr "").
Proof.
  intros Hin. simpl in Hin.
  destruct Hin as [<-|[<-|[<-|[<-|[<-|[<-|[<-|[<-|[<-|[<-|[]]]]]]]]]]];
    unfold competition; by simplify_map_eq.
Qed.

(** C8. The driver returns all the records, in their order, whatever the
    fetches do.  A record without link is at the end as it was at the start,
    so that a record of the listing parser without link still has the
    defaults in all the fields of the enrichment.  When the fetch of the page
    of a record fails, the store is left as it was, a warning is given, and
    the loop goes on with the next record. *)
Theorem enrichment_failures_are_soft (competitions : list loc) (st : state) :
  exists st' : state,
    scrape_detail_pages competitions st = (Return competitions, st')
    /\ (forall l, has_detail_url (heap st l) = false -> heap st' l = heap st l)
    /\ (forall l cells page key,
          heap st l = competition re_search cells page ->
          has_detail_url (heap st l) = false ->
          In key enrichment_fields ->
          heap st' l !! key =
          Some (if String.eqb key "Events_Count" then Py.VInt 0 else Py.VStr ""))
    /\ (forall (comp : loc) (rest updated : list loc) (st0 : state) (u : string) (w : World),
          heap st0 comp !! "Detail_URL" = Some (Py.VStr u) ->
          Py.nonempty u = true ->
          http_get (world st0) u ∅ = (None, w) ->
          detail_loop (comp :: rest) updated st0 =
          detail_loop rest (updated ++ [comp])
            (State w (heap st0)
               (log st0 ++ [Get u ∅; Warning (Py.VStr u); Sleep DEFAULT_DELAY]))).
Proof.
  destruct (scrape_detail_pages_visits competitions st) as (st' & Hrun & Hvisits).
  destruct (visits_spec competitions st st' Hvisits) as (_ & Hskip & _).
  exists st'. split; [done|]. split; [done|]. split.
  - intros l cells page key Hrecord Hurl Hin.
    rewrite (Hskip l Hurl), Hrecord. by apply competition_defaults.
  - apply detail_loop_failure.
Qed.

Lemma listing_not_enriched (key : string) :
  In key listing_fields -> ~ In key enrichment_fields.
Proof.
  simpl. intros Hin.
  destruct Hin as [<-|[<-|[<-|[<-|[<-|[<-|[<-|[<-|[]]]]]]]]];
    intros Hen; repeat (destruct Hen as [Hen|Hen]; [discriminate Hen|]); done.
Qed.

(** C9. The driver visits the records of the list one after the other,
    each once: a visit calls the session at most once and merges at most one
    parsed page into the record.  What the detail parser returns has the ten
    keys of the enrichment and no other, so that merging it leaves every
    other key of a record as it was: through the whole run of the driver
    [Competition_ID], [Date], [Event], [Location], [Type], [Level],
    [Detail_URL] and [Page] keep their values.  A dictionary that is not in
    the list is not touched, and when the records of the list are distinct
    dictionaries, as the listing builds them, each one is at the end what it
    was, or what it was with one parsed detail page merged in. *)
Theorem enrichment_keeps_listing_fields (competitions : list loc) (st : state) :
  exists st' : state,
    scrape_detail_pages competitions st = (Return competitions, st')
    /\ visits competitions st st'
    /\ (forall l key, In key listing_fields -> heap st' l !! key = heap st l !! key)
    /\ (forall l key, ~ In key enrichment_fields -> heap st' l !! key = heap st l !! key)
    /\ (forall html detail_data key,
          parse_detail_page html = Some detail_data ->
          is_Some (detail_data !! key) <-> In key enrichment_fields)
    /\ (forall l, ~ In l competitions -> heap st' l = heap st l)
    /\ (List.NoDup competitions ->
        forall l, heap st' l = heap st l
                  \/ exists html detail_data,
                       parse_detail_page html = Some detail_data
                       /\ heap st' l = detail_data ∪ heap st l).
Proof.
  destruct (scrape_detail_pages_visits competitions st) as (st' & Hrun & Hvisits).
  destruct (visits_spec competitions st st' Hvisits) as (Hout & _ & Hframe & Honce & _).
  exists st'. split; [done|]. split; [done|].
  split; [|split; [done|split; [|split; done]]].
  - intros l key Hin. by apply Hframe, listing_not_enriched.
  - intros html detail_data key. apply parsed_detail_page_keys.
Qed.

End EnrichmentTheorems.

(** C4 as it was claimed fails on a record without link: the driver
    returns it and has not paused. *)
Lemma no_delay_after_skipped_counterexample :
  let run :=
    @scrape_detail_pages Example.scripted [0%nat] (Example.start [] [Example.unlinked]) in
  has_detail_url Example.unlinked = false
  /\ match fst run with Return l => l | _ => [] end = [0%nat]
  /\ sleeps (@log Example.scripted (snd run)) = 0%nat
  /\ sleeps (@log Example.scripted (snd run)) <> length [0%nat].
Proof.
  cbv zeta. split; [by vm_compute|]. split; [by vm_compute|].
  split; by vm_compute.
Qed.

(** The record without link of the sample comes out as it went in. *)
Lemma enrichment_failures_are_soft_witness :
  exists st' : @state Example.scripted,
    @scrape_detail_pages Example.scripted [0; 1]%nat
      (Example.start [None] [Example.unlinked; Example.linked]) = (Return [0; 1]%nat, st')
    /\ @heap Example.scripted st' 0%nat =
       @heap Example.scripted
         (Example.start [None] [Example.unlinked; Example.linked]) 0%nat.
Proof.
  destruct (@enrichment_failures_are_soft Example.scripted [0; 1]%nat
              (Example.start [None] [Example.unlinked; Example.linked]))
    as (st' & Hrun & Hskip & _).
  exists st'. split; [exact Hrun|]. apply Hskip. by vm_compute.
Defined.

(** Two distinct records: the second is what it was, or that with one
    detail page merged in. *)
Lemma enrichment_keeps_listing_fields_witness :
  List.NoDup [0; 1]%nat
  /\ exists st' : @state Example.scripted,
       @scrape_detail_pages Example.scripted [0; 1]%nat
         (Example.start [Some "detail"] [Example.unlinked; Example.linked])
       = (Return [0; 1]%nat, st')
       /\ (@heap Example.scripted st' 1%nat =
             @heap Example.scripted
               (Example.start [Some "detail"] [Example.unlinked; Example.linked]) 1%nat
           \/ exists html detail_data,
                @parse_detail_page Example.scripted html = Some detail_data
                /\ @heap Example.scripted st' 1%nat =
                   detail_data
                   ∪ @heap Example.scripted
                       (Example.start [Some "detail"] [Example.unlinked; Example.linked]) 1%nat).
Proof.
  assert (List.NoDup [0; 1]%nat) as Hdistinct.
  { constructor; [simpl; lia|]. constructor; [simpl; lia|]. constructor. }
  split; [exact Hdistinct|].
  destruct (@enrichment_keeps_listing_fields Example.scripted [0; 1]%nat
              (Example.start [Some "detail"] [Example.unlinked; Example.linked]))
    as (st' & Hrun & _ & _ & _ & _ & _ & Honce).
  exists st'. split; [exact Hrun|]. by apply Honce.
Defined.

(** ** More on the listing parser *)

Section ListingSchema.

Variable re : string -> bool -> string -> option (string * string).

Lemma competition_has_field (cells : list Soup.node) (page : Z) (key : string) :
  In key (listing_fields ++ enrichment_fields) ->
  is_Some (competition re cells page !! key).
Proof.
  intros Hin. simpl in Hin.
  repeat (destruct Hin as [<-|Hin]; [unfold competition; by simplify_map_eq|]).
  done.
Qed.

Lemma competition_no_other_field (cells : list Soup.node) (page : Z) (key : string) :
  ~ In key (listing_fields ++ enrichment_fields) ->
  competition re cells page !! key = None.
Proof.
  intros Hout. unfold competition.
  repeat (rewrite lookup_insert_ne;
          [|intros <-; apply Hout; simpl; repeat first [left; reflexivity | right]; fail]).
  apply lookup_empty.
Qed.

(** X1. Every record that the listing parser returns has the eighteen
    attributes of the output and no other; its [Page] is the number of the
    page it was read from, its other listing attributes are strings, and
    the attributes of the enrichment have their defaults. *)
Theorem listing_records_have_schema (soup : Soup.node) (page : Z) :
  Forall
    (fun r : record =>
       (forall key, is_Some (r !! key) <-> In key (listing_fields ++ enrichment_fields))
       /\ r !! "Page" = Some (Py.VInt page)
       /\ (forall key, In key listing_fields -> key <> "Page" ->
             exists s, r !! key = Some (Py.VStr s))
       /\ (forall key, In key enrichment_fields ->
             r !! key = Some (if String.eqb key "Events_Count" then Py.VInt 0 else Py.VStr "")))
    (parse_competitions_soup re soup page).
Proof.
  unfold parse_competitions_soup. rewrite parse_rows_filter.
  apply Forall_forall. intros r Hr.
  apply list_elem_of_In, in_map_iff in Hr as (row & <- & _).
  split; [|split; [|split]].
  - intros key. split.
    + intros [v Hv].
      destruct (List.in_dec String.string_dec key (listing_fields ++ enrichment_fields))
        as [Hin|Hout]; [done|].
      by rewrite competition_no_other_field in Hv.
    + apply competition_has_field.
  - unfold competition. by simplify_map_eq.
  - intros key Hin Hpage. simpl in Hin.
    repeat (destruct Hin as [<-|Hin];
            [try done; unfold competition; eexists; by simplify_map_eq|]).
    done.
  - intros key Hin. simpl in Hin.
    repeat (destruct Hin as [<-|Hin]; [unfold competition; by simplify_map_eq|]).
    done.
Qed.

End ListingSchema.

(** ** Errors of the listing phase *)

Section ListingErrors.

Context `{Platform}.

Lemma pages_loop_never_raises (fuel : nat) (params : gmap string string) (page : Z)
    (acc : list record) (st : state) (e : exn) :
  fst (pages_loop fuel params page acc st) <> Raise e.
Proof.
  revert page acc st. induction fuel as [|fuel IH]; intros page acc st; [done|].
  rewrite pages_loop_unfold.
  destruct (scrape_page_returns params page st)
    as (competitions & success & st1 & -> & _).
  destruct (negb success || is_empty competitions); [done|].
  destruct (length competitions <? COMPETITIONS_PER_PAGE)%nat; [done|]. apply IH.
Qed.

(** X2. In normal mode [scrape_competitions] raises nothing, whatever the
    site answers and whatever the dates of the query are, which it does not
    read: a failed request ends the pagination and is not an exception.
    The same holds of the pagination from any page on. *)
Theorem normal_mode_never_raises (fuel pfuel : nat) (params : gmap string string)
    (batch_days : Z) (st : state) (e : exn) :
  fst (scrape_competitions fuel pfuel params false batch_days st) <> Raise e
  /\ forall (page : Z) (acc : list record) (st0 : state),
       fst (pages_loop pfuel params page acc st0) <> Raise e.
Proof.
  assert (forall (page : Z) (acc : list record) (st0 : state),
            fst (pages_loop pfuel params page acc st0) <> Raise e) as Hpages.
  { induction pfuel as [|rounds IH]; intros page acc st0; [done|].
    rewrite pages_loop_unfold.
    destruct (scrape_page_returns params page st0)
      as (competitions & success & st1 & -> & _).
    destruct (negb success || is_empty competitions); [done|].
    destruct (length competitions <? COMPETITIONS_PER_PAGE)%nat; [done|]. apply IH. }
  split; [|exact Hpages]. unfold scrape_competitions. apply Hpages.
Qed.

Lemma batch_loop_raises_overflow (fuel pfuel : nat) (params : gmap string string)
    (batch_days cur end_dt : Z) (acc : list record) (st : state) (e : exn) :
  fst (batch_loop fuel pfuel params batch_days cur end_dt acc st) = Raise e ->
  e = OverflowError.
Proof.
  revert cur acc st. induction fuel as [|fuel IH]; intros cur acc st; [done|].
  destruct (Z.leb_spec cur end_dt) as [Hle|Hgt];
    [|by rewrite batch_loop_done by lia].
  rewrite batch_loop_unfold by done.
  destruct (Date.timedelta batch_days) as [delta|]; [|by intros [= <-]].
  destruct (Date.add cur delta) as [upper|]; [|by intros [= <-]].
  cbv zeta.
  pose proof (pages_loop_never_raises pfuel
                (<["frmdate2" := strftime (Z.min upper end_dt)]>
                   (<["frmdate1" := strftime cur]> params)) 1 acc st) as Hpages.
  destruct (pages_loop pfuel _ 1 acc st) as [[acc'|e'|] st']; [| |done].
  - destruct (Date.add _ 1) as [next|]; [apply IH|by intros [= <-]].
  - by destruct (Hpages e').
Qed.

(** X3. In batch mode the two dates of the query are read before anything
    is sent: a date that is missing raises [KeyError] and a date that does
    not parse raises [ValueError], the first date being looked at first, and
    in both cases no request has been made.  Once both dates are read the
    only exception that the mode can raise is [OverflowError]. *)
Theorem batch_mode_date_errors (fuel pfuel : nat) (params : gmap string string)
    (batch_days : Z) (st : state) :
  (params !! "frmdate1" = None ->
   scrape_competitions fuel pfuel params true batch_days st = (Raise KeyError, st))
  /\ (forall date1, params !! "frmdate1" = Some date1 -> strptime date1 = None ->
        scrape_competitions fuel pfuel params true batch_days st = (Raise ValueError, st))
  /\ (forall date1 start_dt,
        params !! "frmdate1" = Some date1 -> strptime date1 = Some start_dt ->
        (params !! "frmdate2" = None ->
         scrape_competitions fuel pfuel params true batch_days st = (Raise KeyError, st))
        /\ (forall date2, params !! "frmdate2" = Some date2 -> strptime date2 = None ->
              scrape_competitions fuel pfuel params true batch_days st
              = (Raise ValueError, st))
        /\ (forall date2 end_dt e,
              params !! "frmdate2" = Some date2 -> strptime date2 = Some end_dt ->
              fst (scrape_competitions fuel pfuel params true batch_days st) = Raise e ->
              e = OverflowError)).
Proof.
  unfold scrape_competitions, date_param.
  split; [|split].
  - intros Hd1. unfold mbind, M_bind. by rewrite Hd1.
  - intros date1 Hd1 Hs1. unfold mbind, M_bind. rewrite Hd1. simpl. by rewrite Hs1.
  - intros date1 start_dt Hd1 Hs1. split; [|split].
    + intros Hd2. unfold mbind, M_bind. rewrite Hd1, Hd2. simpl. by rewrite Hs1.
    + intros date2 Hd2 Hs2. unfold mbind, M_bind. rewrite Hd1, Hd2. simpl.
      by rewrite Hs1, Hs2.
    + intros date2 end_dt e Hd2 Hs2. unfold mbind, M_bind. rewrite Hd1, Hd2. simpl.
      rewrite Hs1, Hs2. simpl. apply batch_loop_raises_overflow.
Qed.

(** X4. In batch mode a range whose start is after its end gives the empty
    list at once: no batch, no request. *)
Theorem batch_mode_empty_range (fuel pfuel : nat) (params : gmap string string)
    (batch_days : Z) (st : state) (date1 date2 : string) (start_dt end_dt : Z) :
  params !! "frmdate1" = Some date1 -> strptime date1 = Some start_dt ->
  params !! "frmdate2" = Some date2 -> strptime date2 = Some end_dt ->
  end_dt < start_dt ->
  scrape_competitions (S fuel) pfuel params true batch_days st = (Return [], st).
Proof.
  intros Hd1 Hs1 Hd2 Hs2 Hlt. unfold scrape_competitions, date_param.
  unfold mbind, M_bind. rewrite Hd1, Hd2. simpl. rewrite Hs1, Hs2. simpl.
  apply Z.leb_gt in Hlt. by rewrite Hlt.
Qed.



End ListingErrors.

(** A thirteenth month: [ValueError], and the trace is still empty. *)
Lemma batch_mode_date_errors_witness :
  @scrape_competitions Example.scripted 5 3 (Example.query "2025-13-01" "2026-01-31")
    true 30 (Example.start [] [])
  = (Raise ValueError, Example.start [] []).
Proof.
  destruct (@batch_mode_date_errors Example.scripted 5 3
              (Example.query "2025-13-01" "2026-01-31") 30 (Example.start [] []))
    as (_ & Hvalue & _).
  apply (Hvalue "2025-13-01"); by vm_compute.
Defined.

Lemma batch_mode_empty_range_witness :
  @scrape_competitions Example.scripted 1 3 (Example.query "2026-01-31" "2025-12-21")
    true 30 (Example.start [] [])
  = (Return [], Example.start [] []).
Proof.
  apply (@batch_mode_empty_range Example.scripted 0 3
           (Example.query "2026-01-31" "2025-12-21") 30 (Example.start [] [])
           "2026-01-31" "2025-12-21" 739647 739606); by vm_compute.
Defined.


(** ** The requests of a run *)

Section Requests.

Context `{Platform}.

Lemma gets_app (t1 t2 : list event) : gets (t1 ++ t2) = (gets t1 ++ gets t2)%list.
Proof. unfold gets. apply List.filter_app. Qed.



Lemma visit_trace_gets (r : record) (trace : list event) :
  visit_trace r trace -> gets trace = detail_request r.
Proof.
  unfold visit_trace, detail_request.
  destruct (r !! "Detail_URL") as [url|]; [|by intros ->].
  destruct (Py.truthy url); [|by intros ->].
  by intros [->| ->].
Qed.

(** X7. The driver of the detail pages calls the session once for each
    record of the list whose link is true as a condition, with that link and
    in the order of the list, and makes no other call; the links are read
    as they were at the start, since no merge changes one.  Whether the
    session sends a request for a link is its own affair: it refuses a link
    without a scheme. *)
Theorem detail_requests_follow_the_list (competitions : list loc) (st : state) :
  exists (st' : state) (trace : list event),
    scrape_detail_pages competitions st = (Return competitions, st')
    /\ log st' = (log st ++ trace)%list
    /\ gets trace = flat_map (fun comp => detail_request (heap st comp)) competitions.
Proof.
  destruct (scrape_detail_pages_visits competitions st) as (st' & Hrun & Hvisits).
  destruct (visits_spec competitions st st' Hvisits)
    as (_ & _ & _ & _ & traces & Hlog & Htraces).
  exists st', (concat traces). split; [done|]. split; [done|].
  clear Hlog Hrun Hvisits.
  induction Htraces as [|comp trace rest traces Htrace _ IH]; [done|].
  cbn [concat flat_map]. by rewrite gets_app, IH, (visit_trace_gets _ _ Htrace).
Qed.

End Requests.


(** ** More on the detail parser *)

Section DetailFields.

Variable re : string -> bool -> string -> option (string * string).
Variable lower : string -> string.

Ltac other_key Hout :=
  rewrite lookup_insert_ne;
  [|intros <-; apply Hout; simpl; repeat first [left; reflexivity | right]; fail].

Lemma mailto_loop_other (links : list Soup.node) (d : record) (key : string) :
  key <> "Organizer_Email" -> mailto_loop links d !! key = d !! key.
Proof.
  intros Hne. induction links as [|link links IH]; [done|]. simpl.
  destruct (Py.nonempty _); [|done]. by rewrite lookup_insert_ne.
Qed.

Lemma paragraph_other (d : record) (p : Soup.node) (key : string) :
  ~ In key ["Organizer_Name"; "Organizer_Address"; "Organizer_Phone";
            "Organizer_Email"; "Organizer_Website"; "Stadium_Address"] ->
  paragraph re lower d p !! key = d !! key.
Proof.
  intros Hout. unfold paragraph.
  repeat case_match; try done; by other_key Hout.
Qed.

Lemma organizer_other (section : option Soup.node) (d : record) (key : string) :
  ~ In key ["Organizer_Name"; "Organizer_Address"; "Organizer_Phone";
            "Organizer_Email"; "Organizer_Website"; "Stadium_Address"] ->
  organizer re lower section d !! key = d !! key.
Proof.
  intros Hout. destruct section as [section|]; [|done]. simpl.
  rewrite <- (mailto_loop_other (Soup.find_all "a" is_mailto section) d key)
    by (intros ->; apply Hout; simpl; tauto).
  generalize (mailto_loop (Soup.find_all "a" is_mailto section) d).
  induction (Soup.find_all "p" Soup.any section) as [|p ps IH]; intros d'; [done|].
  simpl. rewrite IH. by apply paragraph_other.
Qed.

Lemma email_fallback_other (section : option Soup.node) (d : record) (key : string) :
  key <> "Organizer_Email" -> email_fallback re section d !! key = d !! key.
Proof.
  intros Hne. unfold email_fallback.
  repeat case_match; try done; by rewrite lookup_insert_ne.
Qed.

Lemma club_card_other (soup : Soup.node) (d : record) (key : string) :
  key <> "Competition_Code" -> key <> "Contact_Person" ->
  club_card re soup d !! key = d !! key.
Proof.
  intros Hcode Hcontact. unfold club_card.
  repeat case_match; try done; by rewrite ?lookup_insert_ne.
Qed.

Lemma fold_ensure_field_keeps (fields : list string) (d : record) (key : string)
    (v : Py.value) :
  d !! key = Some v -> fold_left ensure_field fields d !! key = Some v.
Proof.
  revert d. induction fields as [|f fields IH]; intros d Hd; [done|].
  simpl. apply IH. by apply ensure_field_keeps.
Qed.

Lemma fold_ensure_field_default (fields : list string) (d : record) (key : string) :
  In key fields -> d !! key = None ->
  fold_left ensure_field fields d !! key = Some (Py.VStr "").
Proof.
  revert d. induction fields as [|f fields IH]; intros d Hin Hd; [done|]. simpl.
  destruct (decide (f = key)) as [->|Hne].
  - apply fold_ensure_field_keeps. unfold ensure_field, has_key.
    rewrite Hd. apply lookup_insert_eq.
  - apply IH; [by destruct Hin|].
    unfold ensure_field. destruct (has_key f d); [done|]. by rewrite lookup_insert_ne.
Qed.

Lemma ensure_fields_default (d : record) (key : string) :
  In key ["Organizer_Name"; "Organizer_Address"; "Organizer_Phone";
          "Organizer_Email"; "Organizer_Website"; "Stadium_Address";
          "Competition_Code"; "Contact_Person"; "Events_List"] ->
  d !! key = None -> ensure_fields d !! key = Some (Py.VStr "").
Proof.
  intros Hin Hd. unfold ensure_fields.
  pose proof (fold_ensure_field_default _ d key Hin Hd) as Hfold.
  destruct (has_key "Events_Count" _); [done|].
  rewrite lookup_insert_ne; [done|].
  intros <-. simpl in Hin. repeat (destruct Hin as [Hin|Hin]; [discriminate Hin|]). done.
Qed.

(** X8. A detail page without the section of practical information gives
    the empty string for the name, address, phone, address of mail and site
    of the organizer and for the address of the stadium, whatever else the
    page holds: none of the three ways to the address of mail is tried
    outside that section. *)
Theorem no_section_no_organizer (soup : Soup.node) (key : string) :
  Soup.find "section" (Soup.attr_is "id" "infoPratique") soup = None ->
  In key ["Organizer_Name"; "Organizer_Address"; "Organizer_Phone";
          "Organizer_Email"; "Organizer_Website"; "Stadium_Address"] ->
  parse_detail_page_soup re lower soup !! key = Some (Py.VStr "").
Proof.
  intros Hnone Hin. unfold parse_detail_page_soup. rewrite Hnone.
  apply ensure_fields_default.
  { simpl in Hin |- *. tauto. }
  assert (key <> "Events_Count" /\ key <> "Events_List"
          /\ key <> "Competition_Code" /\ key <> "Contact_Person") as (H1 & H2 & H3 & H4).
  { simpl in Hin. repeat split; intros ->;
      repeat (destruct Hin as [Hin|Hin]; [discriminate Hin|]); done. }
  rewrite !lookup_insert_ne by done.
  rewrite club_card_other by done.
  unfold organizer, email_fallback. cbn [has_key]. rewrite lookup_empty.
  cbn [negb orb]. apply lookup_empty.
Qed.

End DetailFields.

Lemma no_section_no_organizer_witness :
  parse_detail_page_soup Example.no_match Example.lower Example.footer_only
    !! "Organizer_Email" = Some (Py.VStr "").
Proof.
  apply (no_section_no_organizer Example.no_match Example.lower Example.footer_only
           "Organizer_Email"); [by vm_compute|].
  simpl. tauto.
Defined.

Section DetailValues.

Variable re : string -> bool -> string -> option (string * string).
Variable lower : string -> string.

(** Every value but the count is a string. *)
Local Abbreviation strings_only d :=
  (forall (k : string) (v : Py.value),
     d !! k = Some v -> k <> "Events_Count" -> exists s, v = Py.VStr s).

Lemma insert_string (d : record) (field s : string) :
  strings_only d -> strings_only (<[field := Py.VStr s]> d).
Proof.
  intros Hd k v. destruct (decide (field = k)) as [->|Hne].
  - rewrite lookup_insert_eq. intros [= <-] _. by exists s.
  - rewrite lookup_insert_ne by done. apply Hd.
Qed.

Lemma mailto_loop_strings (links : list Soup.node) (d : record) :
  strings_only d -> strings_only (mailto_loop links d).
Proof.
  intros Hd. induction links as [|link links IH]; [done|]. simpl.
  destruct (Py.nonempty _); [by apply insert_string|done].
Qed.

Lemma paragraph_strings (d : record) (p : Soup.node) :
  strings_only d -> strings_only (paragraph re lower d p).
Proof.
  intros Hd. unfold paragraph.
  repeat case_match; try done; by apply insert_string.
Qed.

Lemma organizer_strings (section : option Soup.node) (d : record) :
  strings_only d -> strings_only (organizer re lower section d).
Proof.
  intros Hd. destruct section as [section|]; [|done]. simpl.
  pose proof (mailto_loop_strings (Soup.find_all "a" is_mailto section) d Hd) as Hmail.
  revert Hmail. generalize (mailto_loop (Soup.find_all "a" is_mailto section) d).
  induction (Soup.find_all "p" Soup.any section) as [|p ps IH]; intros d' Hd'; [done|].
  simpl. apply IH. by apply paragraph_strings.
Qed.

Lemma email_fallback_strings (section : option Soup.node) (d : record) :
  strings_only d -> strings_only (email_fallback re section d).
Proof.
  intros Hd. unfold email_fallback.
  repeat case_match; try done; by apply insert_string.
Qed.

Lemma club_card_strings (soup : Soup.node) (d : record) :
  strings_only d -> strings_only (club_card re soup d).
Proof.
  intros Hd. unfold club_card.
  repeat case_match; try done; repeat apply insert_string; done.
Qed.

Lemma ensure_fields_strings (d : record) :
  strings_only d -> strings_only (ensure_fields d).
Proof.
  intros Hd. unfold ensure_fields.
  assert (forall fields d0, strings_only d0 ->
            strings_only (fold_left ensure_field fields d0)) as Hfold.
  { induction fields as [|f fields IH]; intros d0 Hd0; [done|].
    simpl. apply IH. unfold ensure_field.
    destruct (has_key f d0); [done|by apply insert_string]. }
  match goal with
  | |- context [fold_left ensure_field ?fs d] => specialize (Hfold fs d Hd)
  end.
  destruct (has_key "Events_Count" _); [done|].
  intros k v Hk Hne. rewrite lookup_insert_ne in Hk by done. by eapply Hfold.
Qed.

(** X9. In what the detail parser returns, the nine attributes other than
    the count are always there and are strings, and [Events_Count] is
    there and is an integer that is not negative. *)
Theorem detail_fields_are_typed (soup : Soup.node) :
  (forall key, In key enrichment_fields -> key <> "Events_Count" ->
     exists s, parse_detail_page_soup re lower soup !! key = Some (Py.VStr s))
  /\ exists n, parse_detail_page_soup re lower soup !! "Events_Count" = Some (Py.VInt n)
               /\ 0 <= n.
Proof.
  split.
  - intros key Hin Hne.
    destruct (parse_detail_page_inside re lower soup key Hin) as [v Hv].
    assert (strings_only (parse_detail_page_soup re lower soup)) as Hstrings.
    { unfold parse_detail_page_soup. apply ensure_fields_strings.
      intros k v0 Hk Hcount. rewrite lookup_insert_ne in Hk by done. revert k v0 Hk Hcount.
      apply insert_string, club_card_strings, email_fallback_strings, organizer_strings.
      intros k v0. by rewrite lookup_empty. }
    destruct (Hstrings key v Hv Hne) as [s ->]. by exists s.
  - exists (Z.of_nat (length (events soup))). split; [|lia].
    unfold parse_detail_page_soup. apply ensure_fields_keeps. apply lookup_insert_eq.
Qed.

(** The site of the organizer is not the dash. *)
Local Abbreviation no_dash d := (d !! "Organizer_Website" <> Some (Py.VStr "-")).

Lemma paragraph_no_dash (d : record) (p : Soup.node) :
  no_dash d -> no_dash (paragraph re lower d p).
Proof.
  intros Hd. unfold paragraph.
  repeat case_match; try done; try (by rewrite lookup_insert_ne).
  rewrite lookup_insert_eq. intros [= Hdash].
  match goal with
  | Hguard : _ && negb (String.eqb _ "-") = true |- _ =>
      apply andb_true_iff in Hguard as [_ Hguard]; rewrite Hdash in Hguard; done
  end.
Qed.

(** X10. The site of the organizer that the detail parser returns is never
    the dash that the page shows for no site: a dash is left out and the
    attribute is then the empty string or what another paragraph gave. *)
Theorem website_is_never_the_dash (soup : Soup.node) :
  parse_detail_page_soup re lower soup !! "Organizer_Website" <> Some (Py.VStr "-").
Proof.
  unfold parse_detail_page_soup.
  assert (no_dash (organizer re lower
                     (Soup.find "section" (Soup.attr_is "id" "infoPratique") soup) ∅))
    as Horg.
  { destruct (Soup.find "section" _ soup) as [section|];
      cbn [organizer]; [|by rewrite lookup_empty].
    assert (no_dash (mailto_loop (Soup.find_all "a" is_mailto section) ∅)) as Hmail.
    { rewrite mailto_loop_other by done. by rewrite lookup_empty. }
    revert Hmail. generalize (mailto_loop (Soup.find_all "a" is_mailto section) ∅).
    induction (Soup.find_all "p" Soup.any section) as [|p ps IH]; intros d Hd; [done|].
    simpl. apply IH. by apply paragraph_no_dash. }
  set (d := <["Events_Count" := _]> _).
  assert (no_dash d) as Hd.
  { subst d. rewrite !lookup_insert_ne by done.
    rewrite club_card_other, email_fallback_other by done. exact Horg. }
  clearbody d. intros Hdash.
  destruct (d !! "Organizer_Website") as [v|] eqn:Hv.
  - rewrite (ensure_fields_keeps d _ v Hv) in Hdash. congruence.
  - rewrite (ensure_fields_default d "Organizer_Website") in Hdash; [done| |done].
    simpl. tauto.
Qed.

End DetailValues.

Section DetailContact.

Variable re : string -> bool -> string -> option (string * string).
Variable lower : string -> string.

Lemma take_chars_code_points (n : nat) (s : string) :
  (code_points (Py.take_chars n s) <= n)%nat.
Proof.
  revert n. induction s as [|c s IH]; intros n; simpl; [lia|].
  destruct (Py.is_lead c) eqn:Hlead.
  - destruct n as [|k]; simpl; [lia|]. rewrite Hlead. specialize (IH k). lia.
  - simpl. rewrite Hlead. specialize (IH n). lia.
Qed.

Lemma club_card_contact (soup : Soup.node) (d : record) :
  d !! "Contact_Person" = None ->
  club_card re soup d !! "Contact_Person" = None
  \/ exists g, club_card re soup d !! "Contact_Person"
               = Some (Py.VStr (Py.take_chars 100 (Py.strip g))).
Proof.
  intros Hd. unfold club_card.
  repeat case_match; try (by left);
    try (right; eexists; by rewrite lookup_insert_eq);
    left; by rewrite lookup_insert_ne.
Qed.

(** X11. The person to contact that the detail parser returns is a string
    of 100 characters at most: what the pattern finds on the card is
    stripped and cut to its first 100 characters. *)
Theorem contact_person_is_short (soup : Soup.node) :
  exists s : string,
    parse_detail_page_soup re lower soup !! "Contact_Person" = Some (Py.VStr s)
    /\ (code_points s <= 100)%nat.
Proof.
  unfold parse_detail_page_soup.
  set (section := Soup.find "section" (Soup.attr_is "id" "infoPratique") soup).
  assert (email_fallback re section (organizer re lower section ∅) !! "Contact_Person"
          = None) as Hbefore.
  { rewrite email_fallback_other by done.
    rewrite organizer_other; [apply lookup_empty|].
    simpl. intros Hin. repeat (destruct Hin as [Hin|Hin]; [discriminate Hin|]). done. }
  destruct (club_card_contact soup _ Hbefore) as [Hnone|[g Hsome]].
  - exists "". split; [|simpl; lia].
    apply ensure_fields_default; [simpl; tauto|].
    by rewrite !lookup_insert_ne.
  - exists (Py.take_chars 100 (Py.strip g)). split; [|apply take_chars_code_points].
    apply ensure_fields_keeps. by rewrite !lookup_insert_ne.
Qed.

Lemma paragraph_keeps_name (d : record) (p : Soup.node) :
  Py.contains "Nom de l’organisateur" (Soup.get_text "" true p)
  || Py.contains "Nom de l'organisateur" (Soup.get_text "" true p) = false ->
  paragraph re lower d p !! "Organizer_Name" = d !! "Organizer_Name".
Proof.
  intros Hlabel. unfold paragraph. cbv zeta. rewrite Hlabel.
  repeat case_match; try done; by rewrite lookup_insert_ne.
Qed.

Lemma paragraphs_keep_name (ps : list Soup.node) (d : record) :
  Forall (fun q =>
            Py.contains "Nom de l’organisateur" (Soup.get_text "" true q)
            || Py.contains "Nom de l'organisateur" (Soup.get_text "" true q) = false) ps ->
  fold_left (paragraph re lower) ps d !! "Organizer_Name" = d !! "Organizer_Name".
Proof.
  intros Hps. revert d. induction Hps as [|q ps Hq _ IH]; intros d; [done|].
  cbn [fold_left]. by rewrite IH, paragraph_keeps_name.
Qed.

(** X12. When several paragraphs of the section carry the label of the name
    of the organizer, the last of them decides, wherever it stands among the
    paragraphs of the section: a paragraph with the label writes its value
    over what the paragraphs before it gave, and the paragraphs after it,
    which do not carry the label, leave the name as it is. *)
Theorem last_name_paragraph_wins (soup section : Soup.node) (before after : list Soup.node)
    (p : Soup.node) :
  Soup.find "section" (Soup.attr_is "id" "infoPratique") soup = Some section ->
  Soup.find_all "p" Soup.any section = (before ++ p :: after)%list ->
  Py.contains "Nom de l’organisateur" (Soup.get_text "" true p)
  || Py.contains "Nom de l'organisateur" (Soup.get_text "" true p) = true ->
  Forall (fun q =>
            Py.contains "Nom de l’organisateur" (Soup.get_text "" true q)
            || Py.contains "Nom de l'organisateur" (Soup.get_text "" true q) = false) after ->
  parse_detail_page_soup re lower soup !! "Organizer_Name"
  = Some (Py.VStr (after_colon (Soup.get_text "" true p))).
Proof.
  intros Hsection Hps Hlabel Hafter. unfold parse_detail_page_soup. rewrite Hsection.
  apply ensure_fields_keeps. rewrite !lookup_insert_ne by done.
  rewrite club_card_other, email_fallback_other by done.
  cbn [organizer]. rewrite Hps, fold_left_app. cbn [fold_left].
  rewrite paragraphs_keep_name by done.
  unfold paragraph at 1. cbv zeta. rewrite Hlabel. apply lookup_insert_eq.
Qed.

End DetailContact.

(** Two paragraphs with the name of the organizer and then one with the
    telephone: the second name is kept. *)
Lemma last_name_paragraph_wins_witness :
  parse_detail_page_soup Example.no_match Example.lower Sample.page !! "Organizer_Name"
  = Some (Py.VStr (after_colon (Soup.get_text "" true Sample.last_name))).
Proof.
  apply (last_name_paragraph_wins Example.no_match Example.lower Sample.page
           Sample.two_names [Sample.first_name] [Sample.telephone] Sample.last_name);
    [by vm_compute|by vm_compute|by vm_compute|].
  constructor; [by vm_compute|constructor].
Defined.

(** ** The final table *)

Lemma filter_all {A} (f : A -> bool) (l : list A) :
  (forall x, In x l -> f x = true) -> List.filter f l = l.
Proof.
  induction l as [|x l IH]; intros Hall; [done|]. simpl.
  rewrite (Hall x) by (by left). f_equal. apply IH. intros y Hy. apply Hall. by right.
Qed.

Lemma is_column_spec (competitions : list record) (col : string) :
  is_column competitions col = true <->
  exists r, In r competitions /\ is_Some (r !! col).
Proof.
  unfold is_column. rewrite existsb_exists. split.
  - intros (r & Hr & Hcol). exists r. split; [done|]. by apply bool_decide_eq_true in Hcol.
  - intros (r & Hr & Hcol). exists r. split; [done|]. by apply bool_decide_eq_true.
Qed.

Lemma column_order_is_schema (key : string) :
  In key column_order <-> In key (listing_fields ++ enrichment_fields).
Proof. simpl. tauto. Qed.

(** X13. For a list that is not empty of records that have the eighteen
    attributes of the output and no other, as the parsers build them, the
    final table has the eighteen columns in the fixed order and its rows are
    the records, as they are and in their order. *)
Theorem final_table_of_full_records (competitions : list record) :
  competitions <> [] ->
  Forall (fun r : record =>
            forall key, is_Some (r !! key) <-> In key (listing_fields ++ enrichment_fields))
    competitions ->
  create_final_dataframe competitions = {| columns := column_order; rows := competitions |}.
Proof.
  intros Hne Hfull. unfold create_final_dataframe.
  destruct competitions as [|r0 rest]; [done|]. cbn [is_empty].
  rewrite Forall_forall in Hfull.
  assert (List.filter (is_column (r0 :: rest)) column_order = column_order) as ->.
  { apply filter_all. intros col Hcol. apply is_column_spec. exists r0.
    split; [by left|]. apply (Hfull r0); [by left|]. by apply column_order_is_schema. }
  f_equal. rewrite <- (map_id (r0 :: rest)) at 2. apply map_ext_in.
  intros r Hr. unfold select. apply map_filter_id. intros key v Hkey. simpl.
  apply list_elem_of_In, column_order_is_schema.
  apply (Hfull r); [by apply list_elem_of_In|by eexists].
Qed.

Lemma final_table_of_full_records_witness :
  create_final_dataframe [Example.linked]
  = {| columns := column_order; rows := [Example.linked] |}.
Proof.
  apply final_table_of_full_records; [done|].
  constructor; [|constructor]. intros key. unfold Example.linked. split.
  - intros [v Hv].
    destruct (List.in_dec String.string_dec key (listing_fields ++ enrichment_fields))
      as [Hin|Hout]; [done|].
    by rewrite competition_no_other_field in Hv.
  - apply competition_has_field.
Defined.

(** ** A successful enrichment *)

Section EnrichmentSuccess.

Context `{Platform}.

(** X15. When the page of a record comes and the parser takes it, the
    record is at the end of the step what the parser made of the page in all
    ten attributes of the enrichment, whatever they held before, an
    attribute that the page does not give being set back to its default; the
    other attributes of the record and the other dictionaries are as they
    were; the session has been called once and one pause has been made. *)
Theorem successful_enrichment_overwrites (comp : loc) (st : state)
    (u text : string) (w : World) (soup : Soup.node) :
  heap st comp !! "Detail_URL" = Some (Py.VStr u) ->
  http_get (world st) u ∅ = (Some text, w) ->
  BeautifulSoup text = Some soup ->
  exists st' : state,
    enrich comp st = (Return tt, st')
    /\ (forall key, In key enrichment_fields ->
          heap st' comp !! key = parse_detail_page_soup re_search str_lower soup !! key)
    /\ (forall key, ~ In key enrichment_fields ->
          heap st' comp !! key = heap st comp !! key)
    /\ (forall l, l <> comp -> heap st' l = heap st l)
    /\ world st' = w
    /\ log st' = (log st ++ [Get u ∅; Sleep DEFAULT_DELAY])%list.
Proof.
  intros Hurl Hget Hsoup.
  set (detail_data := parse_detail_page_soup re_search str_lower soup).
  assert (parse_detail_page text = Some detail_data) as Hparse.
  { unfold parse_detail_page. by rewrite Hsoup. }
  pose proof (parsed_detail_page_nonempty text detail_data Hparse) as Hfull.
  exists (State w
            (fun l => if decide (l = comp) then detail_data ∪ heap st l else heap st l)
            (log st ++ [Get u ∅; Sleep DEFAULT_DELAY])).
  split; [|split; [|split; [|split; [|split]]]]; cbn [world heap log]; try done.
  - unfold enrich. unfold mbind at 1, M_bind at 1, read at 1. rewrite Hurl.
    cbn [default from_option id].
    unfold mbind at 1, M_bind at 1. unfold mbind at 1, M_bind at 1.
    unfold scrape_detail_page. unfold mbind at 1, M_bind at 1, get at 1.
    cbn [Py.str]. rewrite Hget, Hparse.
    unfold mret at 1, M_ret at 1.
    rewrite (bool_decide_eq_true_2 _ Hfull).
    unfold update, sleep, emit. cbn [world heap log]. by rewrite <- app_assoc.
  - intros key Hin. rewrite decide_True by done.
    apply lookup_union_l'. by apply parse_detail_page_inside.
  - intros key Hout. rewrite decide_True by done. by eapply merge_frame.
  - intros l Hne. by rewrite decide_False.
Qed.

End EnrichmentSuccess.

Lemma successful_enrichment_overwrites_witness :
  exists st' : @state Example.scripted,
    @enrich Example.scripted 0%nat (Example.start [Some "detail"] [Example.linked])
    = (Return tt, st')
    /\ @log Example.scripted st'
       = [Get "https://www.athle.fr/competitions/a" ∅; Sleep DEFAULT_DELAY].
Proof.
  destruct (@successful_enrichment_overwrites Example.scripted 0%nat
              (Example.start [Some "detail"] [Example.linked])
              "https://www.athle.fr/competitions/a" "detail" [] Example.detail)
    as (st' & Hrun & _ & _ & _ & _ & Hlog); [by vm_compute|by vm_compute|by vm_compute|].
  exists st'. split; [exact Hrun|exact Hlog].
Defined.

(** ** The script, end to end *)

Section ScriptFacts.

Context `{Platform}.

Lemma base_params_dates (season start_date end_date : string) :
  base_params season start_date end_date !! "frmdate1" = Some start_date
  /\ base_params season start_date end_date !! "frmdate2" = Some end_date.
Proof. unfold base_params. split; by simplify_map_eq. Qed.

Lemma scrape_competitions_batch (fuel pfuel : nat) (params : gmap string string)
    (batch_days : Z) (st : state) (date1 date2 : string) (start_dt end_dt : Z) :
  params !! "frmdate1" = Some date1 -> strptime date1 = Some start_dt ->
  params !! "frmdate2" = Some date2 -> strptime date2 = Some end_dt ->
  scrape_competitions fuel pfuel params true batch_days st =
  batch_loop fuel pfuel params batch_days start_dt end_dt [] st.
Proof.
  intros Hd1 Hs1 Hd2 Hs2. unfold scrape_competitions, date_param.
  unfold mbind, M_bind. rewrite Hd1, Hd2. simpl. by rewrite Hs1, Hs2.
Qed.

(** X16. The script asks the site for nothing when one of the two dates
    does not parse.  With two dates that parse, the scraping raises nothing
    that the script has to catch but [OverflowError], and this in batch mode
    only: the dates were checked, both keys are in the query, and neither
    the pagination nor the detail phase raises. *)
Theorem script_errors (fuel pfuel : nat) (season start_date end_date : string)
    (batch_days : Z) (batch_mode scrape_details : bool) (st : state) :
  (strptime start_date = None \/ strptime end_date = None ->
   start_scraping fuel pfuel season start_date end_date batch_days batch_mode
     scrape_details st = (Return InvalidDate, st))
  /\ (forall e st',
        start_scraping fuel pfuel season start_date end_date batch_days batch_mode
          scrape_details st = (Return (Failed e), st') ->
        batch_mode = true /\ e = OverflowError)
  /\ (forall e,
        fst (start_scraping fuel pfuel season start_date end_date batch_days batch_mode
               scrape_details st) <> Raise e).
Proof.
  unfold start_scraping. split; [|split].
  - intros [-> | ->]; [done|]. by destruct (strptime start_date).
  - intros e st'.
    destruct (strptime start_date) as [start_dt|] eqn:Hs1; [|done].
    destruct (strptime end_date) as [end_dt|] eqn:Hs2; [|done].
    destruct (base_params_dates season start_date end_date) as [Hd1 Hd2].
    destruct (scrape_competitions _ _ _ _ _ st) as [[competitions|e'|] st1] eqn:Hrun.
    + destruct (is_empty competitions); [done|].
      destruct scrape_details; [|done].
      destruct (scrape_detail_pages_visits (seq 0 (length competitions))
                  (alloc competitions st1)) as (st2 & -> & _).
      done.
    + intros [= <- <-]. destruct batch_mode.
      * split; [done|].
        rewrite (scrape_competitions_batch _ _ _ _ _ _ _ _ _ Hd1 Hs1 Hd2 Hs2) in Hrun.
        apply (batch_loop_raises_overflow fuel pfuel
                 (base_params season start_date end_date) batch_days start_dt end_dt [] st).
        by rewrite Hrun.
      * exfalso. unfold scrape_competitions in Hrun.
        apply (pages_loop_never_raises pfuel
                 (base_params season start_date end_date) 1 [] st e').
        by rewrite Hrun.
    + done.
  - intros e.
    destruct (strptime start_date); [|done]. destruct (strptime end_date); [|done].
    destruct (scrape_competitions _ _ _ _ _ st) as [[competitions|e'|] st1]; [|done..].
    destruct (is_empty competitions); [done|]. destruct scrape_details; [|done].
    destruct (scrape_detail_pages_visits (seq 0 (length competitions))
                (alloc competitions st1)) as (st2 & -> & _).
    done.
Qed.

End ScriptFacts.

Section ScriptTable.

Context `{Platform}.

Lemma parse_competitions_full (html : string) (page : Z) (competitions : list record) :
  parse_competitions html page = Some competitions ->
  Forall full_record competitions.
Proof.
  unfold parse_competitions. destruct (BeautifulSoup html) as [soup|]; [|done].
  intros [= <-]. unfold parse_competitions_soup. rewrite parse_rows_filter.
  apply Forall_forall. intros r Hr.
  apply list_elem_of_In, in_map_iff in Hr as (row & <- & _).
  intros key. split.
  - intros [v Hv].
    destruct (List.in_dec String.string_dec key (listing_fields ++ enrichment_fields))
      as [Hin|Hout]; [done|].
    by rewrite competition_no_other_field in Hv.
  - apply competition_has_field.
Qed.

Lemma pages_loop_full (fuel : nat) (params : gmap string string) (page : Z)
    (acc : list record) (st : state) (result : list record) (st' : state) :
  Forall full_record acc ->
  pages_loop fuel params page acc st = (Return result, st') ->
  Forall full_record result.
Proof.
  revert page acc st. induction fuel as [|fuel IH]; intros page acc st Hacc; [done|].
  rewrite pages_loop_unfold, scrape_page_unfold. cbv zeta.
  destruct (http_get (world st) BASE_URL _) as [[text|] w]; [|by intros [= <- <-]].
  cbn [mbind option_bind].
  destruct (parse_competitions text page) as [competitions|] eqn:Hparse;
    [|by intros [= <- <-]].
  cbn [negb orb].
  pose proof (parse_competitions_full text page competitions Hparse) as Hpage.
  destruct (is_empty competitions); [by intros [= <- <-]|].
  assert (Forall full_record (acc ++ competitions)) as Hmore by (by apply Forall_app).
  destruct (length competitions <? COMPETITIONS_PER_PAGE)%nat; [by intros [= <- <-]|].
  by apply IH.
Qed.

Lemma batch_loop_full (fuel pfuel : nat) (params : gmap string string)
    (batch_days cur end_dt : Z) (acc : list record) (st : state)
    (result : list record) (st' : state) :
  Forall full_record acc ->
  batch_loop fuel pfuel params batch_days cur end_dt acc st = (Return result, st') ->
  Forall full_record result.
Proof.
  revert cur acc st. induction fuel as [|fuel IH]; intros cur acc st Hacc; [done|].
  destruct (Z.leb_spec cur end_dt) as [Hle|Hgt].
  - rewrite batch_loop_unfold by done.
    destruct (Date.timedelta batch_days) as [delta|]; [|done].
    destruct (Date.add cur delta) as [upper|]; [|done]. cbv zeta.
    destruct (pages_loop pfuel _ 1 acc st) as [[acc'| |] st1] eqn:Hpages; [|done..].
    apply pages_loop_full in Hpages; [|done].
    destruct (Date.add _ 1) as [next|]; [|done]. by apply IH.
  - rewrite batch_loop_done by lia. by intros [= <- <-].
Qed.

Lemma scrape_competitions_full (fuel pfuel : nat) (params : gmap string string)
    (batch_mode : bool) (batch_days : Z) (st : state)
    (result : list record) (st' : state) :
  scrape_competitions fuel pfuel params batch_mode batch_days st = (Return result, st') ->
  Forall full_record result.
Proof.
  unfold scrape_competitions. destruct batch_mode.
  - unfold date_param, mbind, M_bind.
    destruct (params !! "frmdate1") as [date1|]; [|done]. simpl.
    destruct (strptime date1) as [start_dt|]; [|done]. simpl.
    destruct (params !! "frmdate2") as [date2|]; [|done]. simpl.
    destruct (strptime date2) as [end_dt|]; [|done]. simpl.
    by apply batch_loop_full.
  - by apply pages_loop_full.
Qed.

Lemma merged_record_full (html : string) (detail_data r : record) :
  parse_detail_page html = Some detail_data ->
  full_record r -> full_record (detail_data ∪ r).
Proof.
  intros Hparse Hr key.
  destruct (List.in_dec String.string_dec key enrichment_fields) as [Hen|Hout].
  - split.
    + intros _. apply in_or_app. by right.
    + intros _. apply lookup_union_is_Some. left.
      by apply (parsed_detail_page_keys html detail_data key Hparse).
  - rewrite (merge_frame html detail_data r key Hparse Hout). apply Hr.
Qed.

Lemma full_table (competitions : list record) :
  competitions <> [] ->
  Forall full_record competitions ->
  create_final_dataframe competitions = {| columns := column_order; rows := competitions |}.
Proof.
  intros Hne Hfull. unfold create_final_dataframe.
  destruct competitions as [|r0 rest]; [done|]. cbn [is_empty].
  rewrite Forall_forall in Hfull.
  assert (List.filter (is_column (r0 :: rest)) column_order = column_order) as ->.
  { apply filter_all. intros col Hcol. apply is_column_spec. exists r0.
    split; [by left|]. apply (Hfull r0); [by left|]. by apply column_order_is_schema. }
  f_equal. rewrite <- (map_id (r0 :: rest)) at 2. apply map_ext_in.
  intros r Hr. unfold select. apply map_filter_id. intros key v Hkey. simpl.
  apply list_elem_of_In, column_order_is_schema.
  apply (Hfull r); [by apply list_elem_of_In|by eexists].
Qed.

(** X17. Whenever the script builds a table, the table has the eighteen
    columns in the fixed order, at least one row, and in every row the
    eighteen attributes and no other, with or without the detail phase and
    whatever the site answered. *)
Theorem script_table_has_schema (fuel pfuel : nat) (season start_date end_date : string)
    (batch_days : Z) (batch_mode scrape_details : bool) (st : state)
    (df : DataFrame) (st' : state) :
  start_scraping fuel pfuel season start_date end_date batch_days batch_mode
    scrape_details st = (Return (Table df), st') ->
  columns df = column_order /\ rows df <> [] /\ Forall full_record (rows df).
Proof.
  unfold start_scraping.
  destruct (strptime start_date); [|done]. destruct (strptime end_date); [|done].
  destruct (scrape_competitions _ _ _ _ _ st) as [[competitions| |] st1] eqn:Hrun;
    [|done..].
  apply scrape_competitions_full in Hrun.
  destruct competitions as [|r0 rest] eqn:Hcomps; [done|]. cbn [is_empty].
  rewrite <- Hcomps in *. assert (competitions <> []) as Hne by (by subst).
  clear Hcomps. destruct scrape_details.
  - destruct (scrape_detail_pages_visits (seq 0 (length competitions))
                (alloc competitions st1)) as (st2 & -> & Hvisits).
    destruct (visits_spec _ _ _ Hvisits) as (_ & _ & _ & Honce & _).
    intros [= <- <-].
    assert (Forall full_record (map (heap st2) (seq 0 (length competitions)))) as Hfull.
    { apply Forall_forall. intros r Hr.
      apply list_elem_of_In, in_map_iff in Hr as (l & <- & Hl). apply in_seq in Hl.
      assert (full_record (heap (alloc competitions st1) l)) as Hbefore.
      { cbn [alloc heap]. destruct (competitions !! l) as [r|] eqn:Hrl.
        - simpl. rewrite Forall_forall in Hrun. apply Hrun.
          by eapply list_elem_of_lookup_2.
        - apply lookup_ge_None in Hrl. lia. }
      destruct (Honce (seq_NoDup _ _) l) as [->|(html & detail_data & Hparse & ->)]; [done|].
      by eapply merged_record_full. }
    assert (map (heap st2) (seq 0 (length competitions)) <> []) as Hrows.
    { destruct competitions; [done|]. simpl. discriminate. }
    rewrite full_table by done. done.
  - intros [= <- <-]. rewrite full_table by done. done.
Qed.

End ScriptTable.

(** A run on the scripted site: a page of two records, the page of the
    first record is fetched and the page of the second fails. *)
Lemma script_table_has_schema_witness :
  exists df : DataFrame,
    fst (@start_scraping Example.scripted 1 3 "2026" "2025-12-21" "2026-01-31" 30
           false true (Example.start [Some "2"; Some "detail"; None] []))
    = Return (Table df)
    /\ columns df = column_order.
Proof.
  assert (match fst (@start_scraping Example.scripted 1 3 "2026" "2025-12-21"
                       "2026-01-31" 30 false true
                       (Example.start [Some "2"; Some "detail"; None] [])) with
          | Return (Table _) => true
          | _ => false
          end = true) as Htable by (by vm_compute).
  destruct (@start_scraping Example.scripted 1 3 "2026" "2025-12-21" "2026-01-31" 30
              false true (Example.start [Some "2"; Some "detail"; None] []))
    as [[[| |df|e]|e|] st'] eqn:Hrun; try discriminate Htable.
  exists df. split; [done|].
  by destruct (script_table_has_schema _ _ _ _ _ _ _ _ _ _ _ Hrun) as [Hcolumns _].
Defined.

(** ** The requests of the batch mode *)

Section BatchRequests.

Context `{Platform}.

Lemma pages_loop_trace (fuel : nat) (params : gmap string string) (page : Z)
    (acc : list record) (st : state) :
  exists trace : list event,
    log (snd (pages_loop fuel params page acc st)) = (log st ++ trace)%list
    /\ Forall (fun ev => forall url q, ev = Get url q ->
                 url = BASE_URL /\ exists p : Z, q = <["frmposition" := pretty p]> params)
         trace.
Proof.
  revert page acc st. induction fuel as [|fuel IH]; intros page acc st.
  - exists []. by rewrite app_nil_r.
  - rewrite pages_loop_unfold, scrape_page_unfold. cbv zeta.
    assert (forall url q,
              Get BASE_URL (<["frmposition" := pretty page]> params) = Get url q ->
              url = BASE_URL /\ exists p : Z, q = <["frmposition" := pretty p]> params) as Hget.
    { intros url q [= <- <-]. eauto. }
    destruct (http_get (world st) BASE_URL _) as [response w].
    destruct (response ≫= _) as [competitions|].
    + cbn [negb orb].
      destruct (is_empty competitions).
      { exists [Get BASE_URL (<["frmposition" := pretty page]> params)].
        split; [done|]. by constructor. }
      destruct (length competitions <? COMPETITIONS_PER_PAGE)%nat.
      { exists [Get BASE_URL (<["frmposition" := pretty page]> params)].
        split; [done|]. by constructor. }
      destruct (IH (page + 1) (acc ++ competitions)%list
                  (slept (State w (heap st)
                            (log st ++ [Get BASE_URL (<["frmposition" := pretty page]> params)]))))
        as (trace & -> & Htrace).
      exists ([Get BASE_URL (<["frmposition" := pretty page]> params); Sleep DEFAULT_DELAY]
                ++ trace)%list.
      split; [simpl; by rewrite <- !app_assoc|].
      constructor; [done|]. constructor; [done|]. done.
    + exists [Get BASE_URL (<["frmposition" := pretty page]> params); Error page].
      split; [simpl; by rewrite <- app_assoc|].
      constructor; [done|]. by constructor.
Qed.

(** X18. With [batch_days >= 0], every request of the batch mode goes to
    the address of the listing and asks for a range of dates that lies
    within the range of the caller: its two dates are written from days [s]
    and [e] with [start <= s <= e <= end].  This holds for every run,
    whether it returns, raises or goes on. *)
Theorem batch_requests_stay_in_range (fuel pfuel : nat) (params : gmap string string)
    (batch_days start_dt end_dt : Z) (acc : list record) (st : state) :
  0 <= batch_days ->
  exists trace : list event,
    log (snd (batch_loop fuel pfuel params batch_days start_dt end_dt acc st))
    = (log st ++ trace)%list
    /\ Forall (fun ev => forall url q, ev = Get url q ->
                 url = BASE_URL
                 /\ exists s e, start_dt <= s /\ s <= e /\ e <= end_dt
                      /\ q !! "frmdate1" = Some (strftime s)
                      /\ q !! "frmdate2" = Some (strftime e))
         trace.
Proof.
  intros Hdays.
  assert (forall cur, start_dt <= cur ->
            forall acc st,
            exists trace : list event,
              log (snd (batch_loop fuel pfuel params batch_days cur end_dt acc st))
              = (log st ++ trace)%list
              /\ Forall (fun ev => forall url q, ev = Get url q ->
                           url = BASE_URL
                           /\ exists s e, start_dt <= s /\ s <= e /\ e <= end_dt
                                /\ q !! "frmdate1" = Some (strftime s)
                                /\ q !! "frmdate2" = Some (strftime e))
                   trace) as Hgen; [|by apply Hgen].
  clear acc st. induction fuel as [|fuel IH]; intros cur Hcur acc st.
  { exists []. by rewrite app_nil_r. }
  destruct (Z.leb_spec cur end_dt) as [Hle|Hgt].
  - rewrite batch_loop_unfold by done.
    destruct (Date.timedelta batch_days) as [delta|] eqn:Hdelta;
      [|exists []; by rewrite app_nil_r].
    apply timedelta_some in Hdelta as ->.
    destruct (Date.add cur batch_days) as [upper|] eqn:Hupper;
      [|exists []; by rewrite app_nil_r].
    apply date_add_some in Hupper as ->. cbv zeta.
    set (batch_end := Z.min (cur + batch_days) end_dt).
    set (batch_params := <["frmdate2" := strftime batch_end]>
                           (<["frmdate1" := strftime cur]> params)).
    destruct (pages_loop_trace pfuel batch_params 1 acc st) as (trace1 & Hlog1 & Htrace1).
    assert (Forall (fun ev => forall url q, ev = Get url q ->
                      url = BASE_URL
                      /\ exists s e, start_dt <= s /\ s <= e /\ e <= end_dt
                           /\ q !! "frmdate1" = Some (strftime s)
                           /\ q !! "frmdate2" = Some (strftime e))
              trace1) as Hrange1.
    { eapply Forall_impl; [exact Htrace1|].
      intros ev Hev url q Heq. destruct (Hev url q Heq) as (-> & p & ->).
      split; [done|]. exists cur, batch_end. subst batch_end batch_params.
      repeat split; [done|lia|lia|by simplify_map_eq|by simplify_map_eq]. }
    destruct (pages_loop pfuel batch_params 1 acc st) as [[acc'| |] st1];
      cbn [snd] in Hlog1; [|by exists trace1..].
    destruct (Date.add batch_end 1) as [next|] eqn:Hnext; [|by exists trace1].
    apply date_add_some in Hnext as ->.
    destruct (IH (batch_end + 1) ltac:(subst batch_end; lia) acc' st1)
      as (trace2 & -> & Hrange2).
    exists (trace1 ++ trace2)%list. split; [by rewrite Hlog1, <- app_assoc|].
    by apply Forall_app.
  - rewrite batch_loop_done by lia. exists []. by rewrite app_nil_r.
Qed.

End BatchRequests.

Lemma batch_requests_stay_in_range_witness :
  exists trace : list event,
    @log Example.scripted
      (snd (@batch_loop Example.scripted 3 2 (Example.query "2025-12-21" "2025-12-23")
              1 739606 739608 [] (Example.start [Some "2"; None] [])))
    = (@log Example.scripted (Example.start [Some "2"; None] []) ++ trace)%list
    /\ Forall (fun ev => forall url q, ev = Get url q ->
                 url = BASE_URL
                 /\ exists s e, 739606 <= s /\ s <= e /\ e <= 739608
                      /\ q !! "frmdate1" = Some (Date.isoformat s)
                      /\ q !! "frmdate2" = Some (Date.isoformat e))
         trace.
Proof.
  apply (@batch_requests_stay_in_range Example.scripted 3 2
           (Example.query "2025-12-21" "2025-12-23") 1 739606 739608 []
           (Example.start [Some "2"; None] [])).
  lia.
Defined.

(** ** The page of a record *)

Section Provenance.

Context `{Platform}.

Lemma page_records_page (page : Z) (response : option string) :
  Forall (fun r : record => r !! "Page" = Some (Py.VInt page)) (page_records page response).
Proof.
  unfold page_records. destruct response as [text|]; [|constructor].
  cbn [mbind option_bind]. unfold parse_competitions.
  destruct (BeautifulSoup text) as [soup|]; [|constructor].
  cbn [default from_option id]. unfold parse_competitions_soup. rewrite parse_rows_filter.
  apply Forall_forall. intros r Hr.
  apply list_elem_of_In, in_map_iff in Hr as (row & <- & _).
  unfold competition. by simplify_map_eq.
Qed.

Lemma pages_from_answers (n : nat) (w : World) (params : gmap string string) (page : Z) :
  pages_from page (answers (S n) w params page) =
  let '(response, w') := http_get w BASE_URL (<["frmposition" := pretty page]> params) in
  page_records page response :: pages_from (page + 1) (answers n w' params (page + 1)).
Proof. cbn [answers]. by destruct (http_get _ _ _). Qed.

(** X19. The records that a pagination adds are those of the pages that
    the site answered, page after page and all of them: what it returns is
    what it was given followed by the records that the listing parser finds
    in the answer to the request for [page], then those of [page + 1], and
    so on up to the last page asked for; every page before the last has at
    least [COMPETITIONS_PER_PAGE] records and the last has fewer, none when
    its request failed; and every record carries in [Page] the number of the
    page that gave it. *)
Theorem records_carry_their_page (fuel : nat) (params : gmap string string) (page : Z)
    (acc : list record) (st : state) (result : list record) (st' : state) :
  pages_loop fuel params page acc st = (Return result, st') ->
  exists n : nat,
    let pages := pages_from page (answers (S n) (world st) params page) in
    result = (acc ++ concat pages)%list
    /\ forall (i : nat) (records : list record),
         pages !! i = Some records ->
         ((i < n)%nat -> (COMPETITIONS_PER_PAGE <= length records)%nat)
         /\ (i = n -> (length records < COMPETITIONS_PER_PAGE)%nat)
         /\ Forall (fun r : record => r !! "Page" = Some (Py.VInt (page + Z.of_nat i)))
              records.
Proof.
  revert page acc st. induction fuel as [|fuel IH]; intros page acc st; [done|].
  rewrite pages_loop_unfold, scrape_page_unfold. cbv zeta.
  assert (forall response w,
            http_get (world st) BASE_URL (<["frmposition" := pretty page]> params)
            = (response, w) ->
            (length (page_records page response) < COMPETITIONS_PER_PAGE)%nat ->
            forall (i : nat) (records : list record),
              pages_from page (answers 1 (world st) params page) !! i = Some records ->
              ((i < 0)%nat -> (COMPETITIONS_PER_PAGE <= length records)%nat)
              /\ (i = 0%nat -> (length records < COMPETITIONS_PER_PAGE)%nat)
              /\ Forall (fun r : record =>
                           r !! "Page" = Some (Py.VInt (page + Z.of_nat i))) records)
    as Hlast.
  { intros response w Hget Hshort i records. rewrite pages_from_answers, Hget.
    destruct i as [|i]; [|done]. intros [= <-].
    split; [lia|]. split; [done|]. rewrite Z.add_0_r. apply page_records_page. }
  destruct (http_get (world st) BASE_URL _) as [response w] eqn:Hget.
  pose proof (Hlast response w eq_refl) as Hlast'. clear Hlast.
  unfold page_records in Hlast'.
  destruct (response ≫= _) as [competitions|] eqn:Hparse; cbn [default from_option id] in Hlast'.
  - cbn [negb orb].
    destruct (is_empty competitions) eqn:Hempty.
    { destruct competitions; [|done]. intros [= <- <-]. exists 0%nat. cbv zeta. split.
      - rewrite pages_from_answers, Hget. unfold page_records. rewrite Hparse.
        simpl. by rewrite app_nil_r.
      - apply Hlast'. unfold COMPETITIONS_PER_PAGE. simpl. lia. }
    destruct (Nat.ltb_spec (length competitions) COMPETITIONS_PER_PAGE) as [Hshort|Hfull].
    { intros [= <- <-]. exists 0%nat. cbv zeta. split.
      - rewrite pages_from_answers, Hget. unfold page_records. rewrite Hparse.
        simpl. by rewrite app_nil_r.
      - by apply Hlast'. }
    intros Hrest. apply IH in Hrest as (n & Hresult & Hpages). cbv zeta in Hresult, Hpages.
    cbn [slept world] in Hresult, Hpages.
    exists (S n). cbv zeta. rewrite pages_from_answers, Hget.
    unfold page_records at 1 2. rewrite Hparse. cbn [default from_option id].
    split; [rewrite Hresult; simpl; by rewrite <- app_assoc|].
    intros [|i] records; simpl.
    + intros [= <-]. split; [done|]. split; [lia|].
      rewrite Z.add_0_r.
      pose proof (page_records_page page response) as Hpage.
      unfold page_records in Hpage. by rewrite Hparse in Hpage.
    + intros Hi. apply Hpages in Hi as (Hbefore & Hat & Hrecords).
      split; [intros ?; apply Hbefore; lia|]. split; [intros ?; apply Hat; lia|].
      by replace (page + Z.of_nat (S i)) with (page + 1 + Z.of_nat i) by lia.
  - intros [= <- <-]. exists 0%nat. cbv zeta. split.
    + rewrite pages_from_answers, Hget. unfold page_records. rewrite Hparse.
      simpl. by rewrite app_nil_r.
    + apply Hlast'. unfold COMPETITIONS_PER_PAGE. simpl. lia.
Qed.

End Provenance.

(** A first page of two records on the scripted site. *)
Lemma records_carry_their_page_witness :
  exists n : nat,
    let pages :=
      @pages_from Example.scripted 1
        (@answers Example.scripted (S n)
           (@world Example.scripted (Example.start [Some "2"; None] [])) ∅ 1) in
    match fst (@pages_loop Example.scripted 1 ∅ 1 [] (Example.start [Some "2"; None] [])) with
    | Return result => result
    | _ => []
    end = ([] ++ concat pages)%list
    /\ forall (i : nat) (records : list record),
         pages !! i = Some records ->
         ((i < n)%nat -> (COMPETITIONS_PER_PAGE <= length records)%nat)
         /\ (i = n -> (length records < COMPETITIONS_PER_PAGE)%nat)
         /\ Forall (fun r : record => r !! "Page" = Some (Py.VInt (1 + Z.of_nat i))) records.
Proof.
  assert (match fst (@pages_loop Example.scripted 1 ∅ 1 []
                       (Example.start [Some "2"; None] [])) with
          | Return _ => true
          | _ => false
          end = true) as Hreturns by (by vm_compute).
  destruct (@pages_loop Example.scripted 1 ∅ 1 [] (Example.start [Some "2"; None] []))
    as [[result| |] st'] eqn:Hrun; try discriminate Hreturns.
  exact (records_carry_their_page _ _ _ _ _ _ _ Hrun).
Defined.

(** ** A page that the parser refuses *)

Section ParserFailures.

Context `{Platform}.

(** X20. A page that comes but that the HTML parser refuses is handled as
    a page that does not come.  For a page of the listing the error is
    shown, the page gives no record, and the pagination stops there and
    returns what it had.  For the page of a record a warning is given, the
    store is left as it was, and the driver pauses and goes on with the next
    record. *)
Theorem parser_failures_are_caught (st : state) (text : string) (w : World) :
  BeautifulSoup text = None ->
  (forall (params : gmap string string) (page : Z),
     http_get (world st) BASE_URL (<["frmposition" := pretty page]> params) = (Some text, w) ->
     let st' :=
       State w (heap st)
         (log st ++ [Get BASE_URL (<["frmposition" := pretty page]> params); Error page]) in
     scrape_page params page st = (Return ([], false), st')
     /\ forall (fuel : nat) (acc : list record),
          pages_loop (S fuel) params page acc st = (Return acc, st'))
  /\ (forall (comp : loc) (rest updated : list loc) (url : Py.value),
        heap st comp !! "Detail_URL" = Some url ->
        Py.truthy url = true ->
        http_get (world st) (Py.str url) ∅ = (Some text, w) ->
        detail_loop (comp :: rest) updated st =
        detail_loop rest (updated ++ [comp])
          (State w (heap st)
             (log st ++ [Get (Py.str url) ∅; Warning url; Sleep DEFAULT_DELAY]))).
Proof.
  intros Hsoup. split.
  - intros params page Hget. cbv zeta.
    assert (scrape_page params page st =
            (Return ([], false),
             State w (heap st)
               (log st ++ [Get BASE_URL (<["frmposition" := pretty page]> params);
                           Error page]))) as Hpage.
    { rewrite scrape_page_unfold. cbv zeta. rewrite Hget. cbn [mbind option_bind].
      unfold parse_competitions. rewrite Hsoup. by rewrite <- app_assoc. }
    split; [done|]. intros fuel acc. by rewrite pages_loop_unfold, Hpage.
  - intros comp rest updated url Hurl Htruthy Hget. cbn [detail_loop].
    unfold mbind at 1, M_bind at 1, read at 1.
    unfold has_detail_url. rewrite Hurl. cbn [from_option]. rewrite Htruthy.
    cbn [negb]. unfold mbind at 1, M_bind at 1.
    assert (enrich comp st =
            (Return tt,
             State w (heap st)
               (log st ++ [Get (Py.str url) ∅; Warning url; Sleep DEFAULT_DELAY]))) as ->;
      [|done].
    unfold enrich. unfold mbind at 1, M_bind at 1, read at 1. rewrite Hurl.
    cbn [default from_option id].
    unfold mbind at 1, M_bind at 1. unfold mbind at 1, M_bind at 1.
    unfold scrape_detail_page. unfold mbind at 1, M_bind at 1, get at 1.
    rewrite Hget. unfold parse_detail_page. rewrite Hsoup.
    unfold mbind, M_bind, mret, M_ret, sleep, emit. cbn [world heap log].
    by rewrite <- !app_assoc.
Qed.

End ParserFailures.

(** The scripted site answers the first request with a text that the
    parser refuses: the pagination shows the error and returns nothing. *)
Lemma parser_failures_are_caught_witness :
  @pages_loop Example.scripted 1 ∅ 1 [] (Example.start [Some Example.rejected] [])
  = (Return [],
     @State Example.scripted []
       (@heap Example.scripted (Example.start [Some Example.rejected] []))
       (@log Example.scripted (Example.start [Some Example.rejected] [])
          ++ [Get BASE_URL (<["frmposition" := pretty 1]> ∅); Error 1])).
Proof.
  destruct (@parser_failures_are_caught Example.scripted
              (Example.start [Some Example.rejected] []) Example.rejected [])
    as [Hlisting _]; [by vm_compute|].
  destruct (Hlisting ∅ 1) as [_ Hloop]; [reflexivity|].
  exact (Hloop 0%nat []).
Defined.
